(** * The safety-gated chatbot session of [azure-chatbot/example.py]

    A shallow embedding of [ChatbotService] and of the command loop of
    [main].  The three cloud services the program talks to (Content Safety,
    the Semantic Kernel chat function and the Cosmos DB container) are the
    environment: what they answer in one pass of the loop is an [Env], the
    documents of the container are a finite map, and every call that leaves
    the process is recorded in a trace. *)

From Stdlib Require Import Ascii String.
From stdpp Require Import gmap strings list fin_maps sorting pretty.

Open Scope string_scope.

(** ** Python values the program handles *)

(** The line feed of the Python literals ["\n"]. *)
Definition LF : string := String (ascii_of_nat 10) "".

(** [str.lower] on the bytes of the line.  Only the letters A-Z change; the
    three command words are plain ASCII and no other character lowers to
    one of their letters, so the comparison with a command word is decided
    by these bytes alone. *)
Definition lower_ascii (c : ascii) : ascii :=
  let n := nat_of_ascii c in
  if bool_decide (65 ≤ n ≤ 90)%nat then ascii_of_nat (n + 32) else c.

Definition upper_ascii (c : ascii) : ascii :=
  let n := nat_of_ascii c in
  if bool_decide (97 ≤ n ≤ 122)%nat then ascii_of_nat (n - 32) else c.

Fixpoint lower (s : string) : string :=
  match s with
  | "" => ""
  | String c s' => String (lower_ascii c) (lower s')
  end.

(** [str.capitalize]: first character upper case, the rest lower case. *)
Definition capitalize (s : string) : string :=
  match s with
  | "" => ""
  | String c s' => String (upper_ascii c) (lower s')
  end.

(** The exception classes that can reach the program, with the one
    inheritance edge that matters for [except HttpResponseError]. *)
Inductive ExnClass :=
  | HttpResponseError
  | CosmosHttpResponseError
  | ServiceRequestError
  | KernelInvokeException
  | TypeError.

Global Instance ExnClass_eq_dec : EqDecision ExnClass.
Proof. solve_decision. Defined.

Record exn := Exn { exn_class : ExnClass; exn_msg : string }.

Global Instance exn_eq_dec : EqDecision exn.
Proof. solve_decision. Defined.

Definition subclass (c d : ExnClass) : bool :=
  match c, d with
  | CosmosHttpResponseError, HttpResponseError => true
  | _, _ => bool_decide (c = d)
  end.

Definition isinstance (e : exn) (c : ExnClass) : bool := subclass (exn_class e) c.

(** [TextCategory] and the entries of [response.categories_analysis].  The
    severity is the integer the service reports. *)
Inductive TextCategory := HATE | SELF_HARM | SEXUAL | VIOLENCE.

Global Instance TextCategory_eq_dec : EqDecision TextCategory.
Proof. solve_decision. Defined.

Record TextCategoriesAnalysis := { category : TextCategory; severity : Z }.

(** The [results] dict of [analyze_text]: four keys in insertion order. *)
Abbreviation Results := (list (string * option TextCategoriesAnalysis)).

(** [datetime.now(timezone.utc)], seen through the two renderings the
    program takes of it: [str(t.timestamp())] and [t.isoformat()]. *)
Record datetime := { str_timestamp : string; isoformat : string }.

(** ** The Cosmos DB container *)

(** A document as [_store_interaction_sync] builds it. *)
Record Item := {
  id : string;
  user_message : string;
  bot_response : string;
  timestamp : string;
  userId : string
}.

(** The container is partitioned by [/userId]; within a partition the [id]
    identifies the document.  So the stored documents are a finite map from
    (partition key, id) to the remaining fields. *)
Record Body := {
  body_user_message : string;
  body_bot_response : string;
  body_timestamp : string
}.

Abbreviation Container := (gmap (string * string) Body).

Definition doc_key (d : Item) : string * string := (userId d, id d).

Definition doc_body (d : Item) : Body :=
  {| body_user_message := user_message d;
     body_bot_response := bot_response d;
     body_timestamp := timestamp d |}.

Definition doc_of (kb : string * string * Body) : Item :=
  {| id := kb.1.2;
     user_message := body_user_message kb.2;
     bot_response := body_bot_response kb.2;
     timestamp := body_timestamp kb.2;
     userId := kb.1.1 |}.

Definition docs (c : Container) : list Item := doc_of <$> map_to_list c.

(** [ORDER BY c.timestamp DESC]: [a] may come before [b]. *)
Definition ts_desc (a b : Item) : Prop := String.le (timestamp b) (timestamp a).

Global Instance ts_desc_dec : RelDecision ts_desc.
Proof. intros a b. unfold ts_desc. apply _. Defined.

(** [SELECT * FROM c WHERE c.userId = @userId], with or without the
    [ORDER BY c.timestamp DESC] clause. *)
Definition select (order_by_timestamp_desc : bool) (user : string)
    (c : Container) : list Item :=
  let rows := filter (λ d, userId d = user) (docs c) in
  if order_by_timestamp_desc then merge_sort ts_desc rows else rows.

Definition upsert (d : Item) (c : Container) : Container :=
  <[doc_key d := doc_body d]> c.

(** ** Worlds, calls and the monad of the program *)

Inductive Call :=
  | CallAnalyzeText (text : string)
  | CallInvoke (user_message history : string)
  | CallQueryItems (order_by_timestamp_desc : bool) (user : string)
  | CallUpsertItem (doc : Item)
  | CallDeleteItem (item_id partition_key : string).

(** One call that left the process, and the exception it came back with. *)
Record Event := { call : Call; raised : option exn }.

Inductive Out :=
  | Printed (s : string)
  | Prompt (s : string).

Record World := {
  container : Container;
  stdout : list Out;
  trace : list Event
}.

Inductive Result (A : Type) :=
  | Ok (a : A)
  | Raise (e : exn).
Arguments Ok {A} a.
Arguments Raise {A} e.

Definition M (A : Type) : Type := World → Result A * World.

Global Instance M_ret : MRet M := λ A a w, (Ok a, w).

Global Instance M_bind : MBind M := λ A B k m w,
  match m w with
  | (Ok a, w') => k a w'
  | (Raise e, w') => (Raise e, w')
  end.

Definition raise {A} (e : exn) : M A := λ w, (Raise e, w).

(** [try: m except cls as e: handler e] *)
Definition try_except {A} (m : M A) (cls : ExnClass) (handler : exn → M A) : M A :=
  λ w, match m w with
       | (Raise e, w') =>
           if isinstance e cls then handler e w' else (Raise e, w')
       | r => r
       end.

(** [for x in xs: body x] *)
Fixpoint for_each {A} (xs : list A) (body : A → M unit) : M unit :=
  match xs with
  | [] => mret tt
  | x :: xs' => body x;; for_each xs' body
  end.

Definition emit (o : Out) (w : World) : World :=
  {| container := container w; stdout := stdout w ++ [o]; trace := trace w |}.

Definition print (s : string) : M unit := λ w, (Ok tt, emit (Printed s) w).

(** [input(prompt)], returning the line the user typed. *)
Definition input (prompt line : string) : M string :=
  λ w, (Ok line, emit (Prompt prompt) w).

Definition record (c : Call) (r : option exn) (w : World) : World :=
  {| container := container w;
     stdout := stdout w;
     trace := trace w ++ [{| call := c; raised := r |}] |}.

Definition set_container (c : Container) (w : World) : World :=
  {| container := c; stdout := stdout w; trace := trace w |}.

(** ** The environment of one pass of the loop *)

(** What the services answer while one input line is processed: the reply
    of Content Safety to a text, the reply of the chat function to a
    message and a history, the clock, and the failures the store may
    answer a call with instead of serving it. *)
Record Env := {
  content_safety_reply : string → Result (list TextCategoriesAnalysis);
  kernel_reply : string → string → Result string;
  now : datetime;
  query_fault : option exn;
  upsert_fault : option exn;
  delete_fault : string → option exn
}.

Definition exn_of {A} (r : Result A) : option exn :=
  match r with
  | Ok _ => None
  | Raise e => Some e
  end.

(** [self.content_safety_client.analyze_text(request)] *)
Definition content_safety_client_analyze_text (env : Env) (text : string)
    : M (list TextCategoriesAnalysis) :=
  λ w, let r := content_safety_reply env text in
       (r, record (CallAnalyzeText text) (exn_of r) w).

(** [self.kernel.invoke(self.chat_function, arguments)] *)
Definition kernel_invoke (env : Env) (user_message history : string) : M string :=
  λ w, let r := kernel_reply env user_message history in
       (r, record (CallInvoke user_message history) (exn_of r) w).

(** [self.container.query_items(query, parameters, ...)] *)
Definition container_query_items (env : Env) (order_by_timestamp_desc : bool)
    (user : string) : M (list Item) :=
  λ w, let c := CallQueryItems order_by_timestamp_desc user in
       match query_fault env with
       | Some e => (Raise e, record c (Some e) w)
       | None => (Ok (select order_by_timestamp_desc user (container w)),
                  record c None w)
       end.

(** [self.container.upsert_item(doc)] *)
Definition container_upsert_item (env : Env) (doc : Item) : M unit :=
  λ w, let c := CallUpsertItem doc in
       match upsert_fault env with
       | Some e => (Raise e, record c (Some e) w)
       | None => (Ok tt, record c None (set_container (upsert doc (container w)) w))
       end.

Definition not_found : exn := Exn CosmosHttpResponseError "NotFound".

(** [self.container.delete_item(item, partition_key=pk)]: the document is
    addressed by [item['id']] within the partition [pk]; a document that
    is not there is an error of the store. *)
Definition container_delete_item (env : Env) (item : Item) (partition_key : string)
    : M unit :=
  λ w, let c := CallDeleteItem (id item) partition_key in
       match delete_fault env (id item) with
       | Some e => (Raise e, record c (Some e) w)
       | None =>
           match container w !! (partition_key, id item) with
           | Some _ =>
               (Ok tt, record c None
                         (set_container (delete (partition_key, id item) (container w)) w))
           | None => (Raise not_found, record c (Some not_found) w)
           end
       end.

(** ** [ChatbotService] *)

(** [next((item for item in response.categories_analysis
            if item.category == cat), None)] *)
Definition find_category (cat : TextCategory)
    (categories_analysis : list TextCategoriesAnalysis)
    : option TextCategoriesAnalysis :=
  List.find (λ item, bool_decide (category item = cat)) categories_analysis.

(** [result and result.severity >= threshold] *)
Definition at_or_above (threshold : Z) (result : option TextCategoriesAnalysis) : bool :=
  match result with
  | Some r => bool_decide (threshold ≤ severity r)%Z
  | None => false
  end.

(** The [results] dict built from the answer (source lines 120-125). *)
Definition categories_results (categories_analysis : list TextCategoriesAnalysis)
    : Results :=
  [("hate", find_category HATE categories_analysis);
   ("self_harm", find_category SELF_HARM categories_analysis);
   ("sexual", find_category SEXUAL categories_analysis);
   ("violence", find_category VIOLENCE categories_analysis)].

(** The report printed for the results (source lines 128-132). *)
Definition print_results (results : Results) : M unit :=
  print (LF ++ "<-- Content Safety Analysis Results -->");;
  for_each results (λ '(category, result),
    match result with
    | Some r => print (capitalize category ++ " severity: " ++ pretty (severity r))
    | None => mret tt
    end);;
  print ("<-- End of Content Safety Analysis Results -->" ++ LF).

(** [not any(result and result.severity >= threshold
             for result in results.values())] *)
Definition none_at_or_above (threshold : Z) (results : Results) : bool :=
  negb (existsb (at_or_above threshold) results.*2).

Definition analyze_text (env : Env) (text : string) : M (option (bool * Results)) :=
  try_except
    (response ← content_safety_client_analyze_text env text;
     let results := categories_results response in
     print_results results;;
     let threshold := 2%Z in
     let is_safe := none_at_or_above threshold results in
     mret (Some (is_safe, results)))
    HttpResponseError
    (λ e, print ("Failed to analyze text. Error: " ++ exn_msg e);; mret None).

Definition chat_with_kernel (env : Env) (user_message history : string) : M string :=
  response ← kernel_invoke env user_message history;
  mret response.

(** The document [_store_interaction_sync] hands to [upsert_item]
    (source lines 176-182). *)
Definition interaction (current_time : datetime)
    (user_id user_message chat_response : string) : Item :=
  {| id := str_timestamp current_time;
     user_message := user_message;
     bot_response := chat_response;
     timestamp := isoformat current_time;
     userId := user_id |}.

Definition _store_interaction_sync (env : Env) (user_id user_message chat_response : string)
    : M unit :=
  let current_time := now env in
  container_upsert_item env (interaction current_time user_id user_message chat_response).

Definition store_interaction := _store_interaction_sync.

(** The tail of [_load_historical_context_sync] (source lines 205-208):
    keep [items[:5]] and join one "User/ChatBot" pair of lines per item. *)
Definition format_history (items : list Item) : string :=
  let history_items := take 5 items in
  String.concat LF
    ((λ item, "User: " ++ user_message item ++ LF ++ "ChatBot: " ++ bot_response item)
       <$> history_items).

Definition _load_historical_context_sync (env : Env) (user_id : string) : M string :=
  items ← container_query_items env true user_id;
  mret (format_history items).

Definition load_historical_context := _load_historical_context_sync.

Definition _clear_historical_context_sync (env : Env) (user_id : string) : M unit :=
  items ← container_query_items env false user_id;
  for_each items (λ item, container_delete_item env item user_id).

Definition clear_historical_context := _clear_historical_context_sync.

(** ** [main] *)

(** [is_safe, _ = value]: unpacking [None] is a [TypeError]. *)
Definition unpack_error : exn :=
  Exn TypeError "cannot unpack non-iterable NoneType object".

Definition unpack_pair {A B} (value : option (A * B)) : M (A * B) :=
  match value with
  | Some p => mret p
  | None => raise unpack_error
  end.

Inductive Flow := Continue | Break.

(** One pass of [while True]: the line typed at the prompt, and the
    environment while it is processed. *)
Definition loop_body (user_id line : string) (env : Env) : M Flow :=
  user_message ← input "You: " line;
  if bool_decide (lower user_message = "exit") then
    mret Break
  else if bool_decide (lower user_message = "history") then
    history ← load_historical_context env user_id;
    print (LF ++ "<-- Chat history of user ID: " ++ user_id ++ " -->");;
    print history;;
    print ("<-- End of chat history of user ID: " ++ user_id ++ " -->" ++ LF);;
    mret Continue
  else if bool_decide (lower user_message = "clear") then
    clear_historical_context env user_id;;
    print "Chat history cleared.";;
    mret Continue
  else
    '(is_safe, _) ← analyze_text env user_message ≫= unpack_pair;
    if is_safe : bool then
      history ← load_historical_context env user_id;
      chat_response ← chat_with_kernel env user_message history;
      print ("Chatbot: " ++ chat_response);;
      store_interaction env user_id user_message chat_response;;
      mret Continue
    else
      print "Chatbot: Your message is not safe to process. Please rephrase and try again.";;
      mret Continue.

(** How a run over finitely many lines ends: the loop was left by [break],
    or it stands at the prompt for the next line. *)
Inductive SessionEnd := Exited | AwaitingInput.

Fixpoint main_loop (user_id : string) (script : list (string * Env)) : M SessionEnd :=
  match script with
  | [] => mret AwaitingInput
  | (line, env) :: rest =>
      flow ← loop_body user_id line env;
      match flow with
      | Break => mret Exited
      | Continue => main_loop user_id rest
      end
  end.

Definition main (typed_user_id : string) (script : list (string * Env)) : M SessionEnd :=
  user_id ← input "User ID: " typed_user_id;
  main_loop user_id script.

Definition new_world : World := {| container := ∅; stdout := []; trace := [] |}.


(** ** Vocabulary of the statements *)

(** A line is a chat message when it is none of the three command words. *)
Definition is_message (line : string) : Prop :=
  lower line ≠ "exit" ∧ lower line ≠ "history" ∧ lower line ≠ "clear".

Global Instance is_message_dec line : Decision (is_message line).
Proof. unfold is_message. apply _. Defined.

(** An absent result read as severity 0. *)
Definition severity_or_zero (result : option TextCategoriesAnalysis) : Z :=
  from_option severity 0%Z result.

(** The verdict [analyze_text] returns for a text, if it returns one. *)
Definition verdict (env : Env) (text : string) : option bool :=
  match (analyze_text env text new_world).1 with
  | Ok (Some (is_safe, _)) => Some is_safe
  | _ => None
  end.

(** The world once the report of an answer has been printed. *)
Definition reported (response : list TextCategoriesAnalysis) (w : World) : World :=
  (print_results (categories_results response) w).2.

(** The history text a pass reads for a user from a world. *)
Definition history_in (user_id : string) (w : World) : string :=
  format_history (select true user_id (container w)).

Definition refusal : string :=
  "Chatbot: Your message is not safe to process. Please rephrase and try again.".

(** The worlds and results a pass over a chat message can end in, one
    constructor per way through the [else] branch of the loop. *)
Inductive MessagePass (user_id line : string) (env : Env) (w : World)
    : Result Flow * World → Prop :=
  | PassCaught e :
      content_safety_reply env line = Raise e →
      isinstance e HttpResponseError = true →
      MessagePass user_id line env w
        (Raise unpack_error,
         emit (Printed ("Failed to analyze text. Error: " ++ exn_msg e))
           (record (CallAnalyzeText line) (Some e) (emit (Prompt "You: ") w)))
  | PassUncaught e :
      content_safety_reply env line = Raise e →
      isinstance e HttpResponseError = false →
      MessagePass user_id line env w
        (Raise e, record (CallAnalyzeText line) (Some e) (emit (Prompt "You: ") w))
  | PassUnsafe response wa :
      content_safety_reply env line = Ok response →
      wa = reported response (record (CallAnalyzeText line) None (emit (Prompt "You: ") w)) →
      verdict env line = Some false →
      MessagePass user_id line env w (Ok Continue, emit (Printed refusal) wa)
  | PassQueryFailed response wa e :
      content_safety_reply env line = Ok response →
      wa = reported response (record (CallAnalyzeText line) None (emit (Prompt "You: ") w)) →
      verdict env line = Some true →
      query_fault env = Some e →
      MessagePass user_id line env w
        (Raise e, record (CallQueryItems true user_id) (Some e) wa)
  | PassInvokeFailed response wa history e :
      content_safety_reply env line = Ok response →
      wa = reported response (record (CallAnalyzeText line) None (emit (Prompt "You: ") w)) →
      verdict env line = Some true →
      query_fault env = None →
      history = history_in user_id w →
      kernel_reply env line history = Raise e →
      MessagePass user_id line env w
        (Raise e,
         record (CallInvoke line history) (Some e)
           (record (CallQueryItems true user_id) None wa))
  | PassUpsertFailed response wa history chat_response doc e :
      content_safety_reply env line = Ok response →
      wa = reported response (record (CallAnalyzeText line) None (emit (Prompt "You: ") w)) →
      verdict env line = Some true →
      query_fault env = None →
      history = history_in user_id w →
      kernel_reply env line history = Ok chat_response →
      doc = interaction (now env) user_id line chat_response →
      upsert_fault env = Some e →
      MessagePass user_id line env w
        (Raise e,
         record (CallUpsertItem doc) (Some e)
           (emit (Printed ("Chatbot: " ++ chat_response))
              (record (CallInvoke line history) None
                 (record (CallQueryItems true user_id) None wa))))
  | PassStored response wa history chat_response doc :
      content_safety_reply env line = Ok response →
      wa = reported response (record (CallAnalyzeText line) None (emit (Prompt "You: ") w)) →
      verdict env line = Some true →
      query_fault env = None →
      history = history_in user_id w →
      kernel_reply env line history = Ok chat_response →
      doc = interaction (now env) user_id line chat_response →
      upsert_fault env = None →
      MessagePass user_id line env w
        (Ok Continue,
         record (CallUpsertItem doc) None
           (set_container (upsert doc (container w))
              (emit (Printed ("Chatbot: " ++ chat_response))
                 (record (CallInvoke line history) None
                    (record (CallQueryItems true user_id) None wa))))).

(** Printing touches the standard output only. *)
Definition only_prints (w w' : World) : Prop :=
  container w' = container w ∧ trace w' = trace w ∧
  ∃ outs, stdout w' = (stdout w ++ outs)%list.

(** What the calls recorded during one pass say about it. *)
Definition generated (evs : list Event) : Prop :=
  ∃ user_message history,
    {| call := CallInvoke user_message history; raised := None |} ∈ evs.

Definition write_attempted (evs : list Event) : Prop :=
  ∃ doc r, {| call := CallUpsertItem doc; raised := r |} ∈ evs.

Definition written (evs : list Event) : Prop :=
  ∃ doc, {| call := CallUpsertItem doc; raised := None |} ∈ evs.

(** The calls that go to the chat function or to the store. *)
Definition generation_or_store (c : Call) : Prop :=
  match c with
  | CallAnalyzeText _ => False
  | _ => True
  end.

(** The invariant of the data model, read literally: over one pass on a
    chat message, a turn is written exactly when the verdict was safe and
    a response was generated. *)
Definition written_iff_safe_and_generated : Prop :=
  ∀ user_id line env w r w' evs,
    is_message line →
    loop_body user_id line env w = (r, w') →
    trace w' = (trace w ++ evs)%list →
    (written evs ↔ verdict env line = Some true ∧ generated evs).

(** ** The command rule as the specification words it *)

(** Trimming: the input without its leading and trailing white space. *)
Fixpoint lstrip (s : string) : string :=
  match s with
  | "" => ""
  | String c s' => if Ascii.is_space c then lstrip s' else s
  end.

Definition strip (s : string) : string :=
  String.rev (lstrip (String.rev (lstrip s))).

Inductive Command := CmdExit | CmdHistory | CmdClear | CmdMessage.

(** "Case-insensitive match on the full trimmed input". *)
Definition spec_command (line : string) : Command :=
  let word := lower (strip line) in
  if bool_decide (word = "exit") then CmdExit
  else if bool_decide (word = "history") then CmdHistory
  else if bool_decide (word = "clear") then CmdClear
  else CmdMessage.

(** The first call a pass makes, if it makes one. *)
Definition first_call (w : World) (p : Result Flow * World) : option Call :=
  call <$> head (drop (length (trace w)) (trace p.2)).

(** The rule read literally: what a pass does is decided by the command
    the trimmed line spells. *)
Definition commands_match_trimmed_input : Prop :=
  ∀ user_id line env w,
    let p := loop_body user_id line env w in
    match spec_command line with
    | CmdExit => p.1 = Ok Break
    | CmdHistory => first_call w p = Some (CallQueryItems true user_id)
    | CmdClear => first_call w p = Some (CallQueryItems false user_id)
    | CmdMessage => first_call w p = Some (CallAnalyzeText line)
    end.

(** ** Sample environments *)

Definition t1 : datetime :=
  {| str_timestamp := "1730635200.25";
     isoformat := "2024-11-03T12:00:00.250000+00:00" |}.

Definition t2 : datetime :=
  {| str_timestamp := "1730635260.5";
     isoformat := "2024-11-03T12:01:00.500000+00:00" |}.

Definition calm : list TextCategoriesAnalysis :=
  [{| category := HATE; severity := 0 |};
   {| category := SELF_HARM; severity := 0 |};
   {| category := SEXUAL; severity := 0 |};
   {| category := VIOLENCE; severity := 1 |}].

Definition hateful : list TextCategoriesAnalysis :=
  [{| category := HATE; severity := 3 |};
   {| category := SELF_HARM; severity := 0 |};
   {| category := SEXUAL; severity := 0 |};
   {| category := VIOLENCE; severity := 0 |}].

Definition echo (user_message history : string) : Result string :=
  Ok ("You said: " ++ user_message).

Definition healthy (t : datetime) : Env :=
  {| content_safety_reply := λ _, Ok calm;
     kernel_reply := echo;
     now := t;
     query_fault := None;
     upsert_fault := None;
     delete_fault := λ _, None |}.

Definition unavailable : exn := Exn HttpResponseError "(503) Service Unavailable".

Definition classifier_down (t : datetime) : Env :=
  {| content_safety_reply := λ _, Raise unavailable;
     kernel_reply := echo;
     now := t;
     query_fault := None;
     upsert_fault := None;
     delete_fault := λ _, None |}.

Definition store_unavailable : exn :=
  Exn CosmosHttpResponseError "(503) Service Unavailable".

Definition upsert_down (t : datetime) : Env :=
  {| content_safety_reply := λ _, Ok calm;
     kernel_reply := echo;
     now := t;
     query_fault := None;
     upsert_fault := Some store_unavailable;
     delete_fault := λ _, None |}.

(** A store with six turns of alice and one of bob. *)
Definition turn (user n second : string) : Item :=
  {| id := "17306352" ++ second ++ ".5";
     user_message := "question " ++ n;
     bot_response := "answer " ++ n;
     timestamp := "2024-11-03T12:00:" ++ second ++ ".500000+00:00";
     userId := user |}.

Definition busy : Container :=
  foldr upsert ∅
    [turn "alice" "3" "03"; turn "alice" "1" "01"; turn "bob" "7" "07";
     turn "alice" "6" "06"; turn "alice" "2" "02"; turn "alice" "5" "05";
     turn "alice" "4" "04"].

Definition busy_world : World := {| container := busy; stdout := []; trace := [] |}.

(** ** More vocabulary *)

Global Instance Item_eq_dec : EqDecision Item.
Proof. solve_decision. Defined.

(** The calls that change the container when they are served. *)
Definition is_write (c : Call) : bool :=
  match c with
  | CallUpsertItem _ | CallDeleteItem _ _ => true
  | _ => false
  end.

(** The two lines one turn takes in the history text. *)
Definition turn_text (message response : string) : string :=
  "User: " ++ message ++ LF ++ "ChatBot: " ++ response.

(** The deletion [clear] issues for a document, when it is served. *)
Definition deletion (user_id : string) (d : Item) : Event :=
  {| call := CallDeleteItem (id d) user_id; raised := None |}.

Definition refused_connection : exn :=
  Exn ServiceRequestError "Cannot connect to host".

Definition classifier_unreachable (t : datetime) : Env :=
  {| content_safety_reply := λ _, Raise refused_connection;
     kernel_reply := echo;
     now := t;
     query_fault := None;
     upsert_fault := None;
     delete_fault := λ _, None |}.

Definition classifier_alarmed (t : datetime) : Env :=
  {| content_safety_reply := λ _, Ok hateful;
     kernel_reply := echo;
     now := t;
     query_fault := None;
     upsert_fault := None;
     delete_fault := λ _, None |}.

(** A store that refuses the deletion of one document. *)
Definition delete_refused (refused_id : string) (t : datetime) : Env :=
  {| content_safety_reply := λ _, Ok calm;
     kernel_reply := echo;
     now := t;
     query_fault := None;
     upsert_fault := None;
     delete_fault := λ i, if bool_decide (i = refused_id)
                          then Some store_unavailable else None |}.

(** The entry of an answer that speaks for a category: the first one
    that carries it. *)
Definition first_entry (cat : TextCategory)
    (response : list TextCategoriesAnalysis) (item : TextCategoriesAnalysis) : Prop :=
  ∃ pre post, response = (pre ++ item :: post)%list ∧
              category item = cat ∧
              ∀ x, x ∈ pre → category x ≠ cat.

(** What an answer holds for a category: its first entry with that
    category, or nothing when no entry carries it. *)
Definition entry_for (cat : TextCategory)
    (response : list TextCategoriesAnalysis)
    (result : option TextCategoriesAnalysis) : Prop :=
  match result with
  | Some item => first_entry cat response item
  | None => ∀ x, x ∈ response → category x ≠ cat
  end.

(** The lines of the report about one category: the severity of its
    first entry under the given heading, or no line without an entry. *)
Definition report_for (heading : string) (cat : TextCategory)
    (response : list TextCategoriesAnalysis) (lines : list Out) : Prop :=
  (∃ item, first_entry cat response item ∧
           lines = [Printed (heading ++ " severity: " ++ pretty (severity item))]) ∨
  ((∀ x, x ∈ response → category x ≠ cat) ∧ lines = []).

(** The line printed for a result of [analyze_text], if it is present. *)
Definition report_lines (heading : string)
    (result : option TextCategoriesAnalysis) : list Out :=
  match result with
  | Some r => [Printed (heading ++ " severity: " ++ pretty (severity r))]
  | None => []
  end.

(** * Properties *)

(** ** Stepping through the program *)

Ltac run :=
  cbv beta iota zeta delta
    [loop_body input mbind M_bind mret M_ret analyze_text try_except raise
     unpack_pair content_safety_client_analyze_text kernel_invoke
     container_query_items container_upsert_item container_delete_item
     chat_with_kernel _store_interaction_sync store_interaction
     _load_historical_context_sync load_historical_context
     _clear_historical_context_sync clear_historical_context
     print exn_of].

Tactic Notation "proj" :=
  cbn [container stdout trace emit record set_container].
Tactic Notation "proj" "in" hyp(H) :=
  cbn [container stdout trace emit record set_container] in H.

Ltac in_list :=
  repeat match goal with
  | H : _ ∈ [] |- _ => by apply elem_of_nil in H
  | H : _ ∈ _ :: _ |- _ => apply elem_of_cons in H as [H|H]
  end.

Ltac in_here := repeat first [apply list_elem_of_here | apply list_elem_of_further].

Ltac ev_solve :=
  intros;
  repeat match goal with
  | H : _ ∧ _ |- _ => destruct H
  | H : ∃ _, _ |- _ => destruct H
  end;
  in_list; simplify_eq; try done;
  try (match goal with H : ¬ _ |- _ => destruct H; eexists; by in_here end);
  repeat match goal with
  | |- _ ∧ _ => split
  | |- ∃ _, _ => eexists
  end;
  try done; try by in_here.

Lemma bind_ok {A B} (m : M A) (k : A → M B) w a w' :
  m w = (Ok a, w') → (m ≫= k) w = k a w'.
Proof. intros H. unfold mbind, M_bind. by rewrite H. Qed.

Lemma bind_raise {A B} (m : M A) (k : A → M B) w e w' :
  m w = (Raise e, w') → (m ≫= k) w = (Raise e, w').
Proof. intros H. unfold mbind, M_bind. by rewrite H. Qed.

Lemma is_message_tests line :
  is_message line →
  bool_decide (lower line = "exit") = false ∧
  bool_decide (lower line = "history") = false ∧
  bool_decide (lower line = "clear") = false.
Proof. intros (? & ? & ?). by rewrite !bool_decide_eq_false. Qed.

Lemma only_prints_refl w : only_prints w w.
Proof. repeat split. exists []. by rewrite app_nil_r. Qed.

Lemma only_prints_trans w1 w2 w3 :
  only_prints w1 w2 → only_prints w2 w3 → only_prints w1 w3.
Proof.
  intros (Hc1 & Ht1 & o1 & Ho1) (Hc2 & Ht2 & o2 & Ho2).
  repeat split; [congruence..|].
  exists (o1 ++ o2)%list. by rewrite Ho2, Ho1, app_assoc.
Qed.

Lemma only_prints_emit o w : only_prints w (emit o w).
Proof. repeat split. by exists [o]. Qed.

Lemma for_each_prints {A} (body : A → M unit) (xs : list A) w :
  (∀ x w, ∃ w', body x w = (Ok tt, w') ∧ only_prints w w') →
  ∃ w', for_each xs body w = (Ok tt, w') ∧ only_prints w w'.
Proof.
  intros Hbody. revert w. induction xs as [|x xs IH]; intros w; simpl.
  - exists w. split; [done|apply only_prints_refl].
  - destruct (Hbody x w) as (w1 & Hx & Hw1).
    destruct (IH w1) as (w' & Hrun & Hw'). exists w'. split.
    + by erewrite bind_ok.
    + by eapply only_prints_trans.
Qed.

Lemma print_results_spec results w :
  ∃ w', print_results results w = (Ok tt, w') ∧ only_prints w w'.
Proof.
  unfold print_results.
  edestruct (for_each_prints
    (λ '(category, result),
       match result with
       | Some r => print (capitalize category ++ " severity: " ++ pretty (severity r))
       | None => mret tt
       end) results
    (emit (Printed (LF ++ "<-- Content Safety Analysis Results -->")) w))
    as (w1 & Hrun & Hw1).
  { intros [c [r|]] w0; eexists; (split; [reflexivity|]);
      [apply only_prints_emit|apply only_prints_refl]. }
  exists (emit (Printed ("<-- End of Content Safety Analysis Results -->" ++ LF)) w1).
  split.
  - erewrite bind_ok; [|reflexivity].
    erewrite bind_ok; [reflexivity|]. exact Hrun.
  - eapply only_prints_trans; [apply only_prints_emit|].
    eapply only_prints_trans; [apply Hw1|apply only_prints_emit].
Qed.

Lemma print_results_reported response w :
  print_results (categories_results response) w = (Ok tt, reported response w).
Proof.
  unfold reported.
  by destruct (print_results_spec (categories_results response) w) as (w' & -> & _).
Qed.

Lemma reported_only_prints response w : only_prints w (reported response w).
Proof.
  unfold reported.
  by destruct (print_results_spec (categories_results response) w) as (w' & -> & ?).
Qed.

Lemma analyze_text_ok env text response w :
  content_safety_reply env text = Ok response →
  analyze_text env text w =
    (Ok (Some (none_at_or_above 2 (categories_results response),
               categories_results response)),
     reported response (record (CallAnalyzeText text) None w)).
Proof.
  intros Hreply. unfold analyze_text, try_except.
  erewrite bind_ok; [|unfold content_safety_client_analyze_text; by rewrite Hreply].
  erewrite bind_ok; [|apply print_results_reported]. reflexivity.
Qed.

Lemma verdict_ok env text response :
  content_safety_reply env text = Ok response →
  verdict env text = Some (none_at_or_above 2 (categories_results response)).
Proof. intros H. unfold verdict. by rewrite (analyze_text_ok _ _ _ _ H). Qed.

Lemma verdict_raise env text e :
  content_safety_reply env text = Raise e → verdict env text = None.
Proof.
  intros H. unfold verdict. run. rewrite H.
  by destruct (isinstance e HttpResponseError).
Qed.

(** Every pass over a chat message ends in one of the seven ways. *)
Lemma loop_body_message user_id line env w :
  is_message line → MessagePass user_id line env w (loop_body user_id line env w).
Proof.
  intros (H1 & H2 & H3)%is_message_tests.
  unfold loop_body. erewrite bind_ok; [|reflexivity].
  rewrite H1, H2, H3.
  destruct (content_safety_reply env line) as [response|e] eqn:Hreply.
  - pose proof (verdict_ok _ _ _ Hreply) as Hv.
    erewrite bind_ok; [|erewrite bind_ok; [|by apply analyze_text_ok]; reflexivity].
    destruct (none_at_or_above 2 (categories_results response)).
    + run. destruct (query_fault env) as [e|] eqn:Hq; proj.
      { by eapply PassQueryFailed. }
      pose proof (reported_only_prints response
        (record (CallAnalyzeText line) None (emit (Prompt "You: ") w))) as (Hc & _).
      proj in Hc. proj. rewrite Hc.
      destruct (kernel_reply env line _) as [chat_response|e] eqn:Hk.
      * destruct (upsert_fault env) as [e|] eqn:Hu; proj; rewrite ?Hc.
        { by eapply PassUpsertFailed. }
        by eapply PassStored.
      * by eapply PassInvokeFailed.
    + run. by eapply PassUnsafe.
  - run. rewrite Hreply.
    destruct (isinstance e HttpResponseError) eqn:Hi.
    + by apply PassCaught.
    + by apply PassUncaught.
Qed.

Lemma trace_reported response w : trace (reported response w) = trace w.
Proof. by destruct (reported_only_prints response w) as (_ & ? & _). Qed.

Lemma container_reported response w : container (reported response w) = container w.
Proof. by destruct (reported_only_prints response w) as (? & _). Qed.

Lemma main_loop_app user_id pre rest w w1 :
  main_loop user_id pre w = (Ok AwaitingInput, w1) →
  main_loop user_id (pre ++ rest) w = main_loop user_id rest w1.
Proof.
  revert w. induction pre as [|[line env] pre IH]; intros w; simpl.
  - by intros [= ->].
  - unfold mbind, M_bind.
    destruct (loop_body user_id line env w) as [[[|]|e] w0]; [by apply IH|done..].
Qed.

Lemma main_loop_raise user_id line env post w e w' :
  loop_body user_id line env w = (Raise e, w') →
  main_loop user_id ((line, env) :: post) w = (Raise e, w').
Proof. intros H. simpl. by erewrite bind_raise. Qed.

(** Inversion of a message pass, with the calls it recorded made explicit. *)
Ltac pass_cases Hpass Htrace :=
  inversion Hpass; subst; clear Hpass;
  proj in Htrace; rewrite ?trace_reported in Htrace; proj in Htrace;
  rewrite <- ?app_assoc in Htrace; apply app_inv_head in Htrace;
  simpl in Htrace; subst;
  proj; rewrite ?container_reported; proj.

(** ** The verdict of [analyze_text] *)

Lemma at_or_above_spec t result :
  at_or_above t result = true ↔ ∃ r, result = Some r ∧ (t ≤ severity r)%Z.
Proof.
  destruct result as [r|]; simpl.
  - rewrite bool_decide_eq_true. split; [eauto|]. by intros (? & [= <-] & ?).
  - split; [done|]. by intros (? & ? & ?).
Qed.

Lemma none_at_or_above_iff t (results : Results) :
  none_at_or_above t results = true ↔
  ∀ result r, result ∈ results.*2 → result = Some r → (severity r < t)%Z.
Proof.
  unfold none_at_or_above.
  rewrite negb_true_iff, <- not_true_iff_false, existsb_exists. split.
  - intros Hno result r Hin ->.
    destruct (decide (severity r < t)%Z) as [|Hge]; [done|]. destruct Hno.
    exists (Some r). split; [by apply list_elem_of_In|].
    apply at_or_above_spec. exists r. split; [done|lia].
  - intros Hall (result & Hin%list_elem_of_In & (r & -> & Hr)%at_or_above_spec).
    specialize (Hall _ _ Hin eq_refl). lia.
Qed.

Lemma none_at_or_above_zero t (results : Results) :
  (0 < t)%Z →
  none_at_or_above t results = true ↔
  ∀ result, result ∈ results.*2 → (severity_or_zero result < t)%Z.
Proof.
  intros Ht. rewrite none_at_or_above_iff. split.
  - intros H [r|] Hin; simpl; [by eapply H|done].
  - intros H result r Hin ->. apply (H _ Hin).
Qed.

Lemma find_category_unique response item :
  NoDup (category <$> response) →
  item ∈ response →
  find_category (category item) response = Some item.
Proof.
  unfold find_category. induction response as [|x xs IH]; intros Hdup Hin; [in_list|].
  rewrite fmap_cons in Hdup. apply NoDup_cons in Hdup as [Hx Hdup].
  apply elem_of_cons in Hin as [->|Hin]; simpl.
  - by rewrite bool_decide_eq_true_2.
  - rewrite bool_decide_eq_false_2; [by apply IH|].
    intros Heq. apply Hx. rewrite Heq. by apply list_elem_of_fmap_2.
Qed.

Lemma find_category_elem cat response item :
  find_category cat response = Some item → item ∈ response ∧ category item = cat.
Proof.
  unfold find_category. intros [Hin Hcat%bool_decide_eq_true]%find_some.
  split; [by apply list_elem_of_In|done].
Qed.

(** When the answer has one entry per category, the verdict is safe
    exactly when every entry of the answer is below 2. *)
Lemma verdict_over_the_answer response :
  NoDup (category <$> response) →
  none_at_or_above 2 (categories_results response) = true ↔
  ∀ item, item ∈ response → (severity item < 2)%Z.
Proof.
  intros Hdup. rewrite none_at_or_above_iff. split.
  - intros H item Hin. apply (H (Some item)); [|done].
    rewrite <- (find_category_unique response item Hdup Hin).
    unfold categories_results. cbn [fmap list_fmap snd].
    destruct (category item); in_here.
  - intros H result r Hin ->. apply H.
    unfold categories_results in Hin. cbn [fmap list_fmap snd] in Hin.
    in_list; symmetry in Hin; by apply find_category_elem in Hin as [? _].
Qed.

Lemma find_category_first cat response item :
  find_category cat response = Some item ↔ first_entry cat response item.
Proof.
  unfold find_category, first_entry.
  induction response as [|x xs IH]; simpl.
  - split; [done|]. intros (pre & post & Heq & _). by destruct pre.
  - case_bool_decide as Hx.
    + split.
      * intros [= <-]. exists [], xs. split; [done|]. split; [done|]. intros; in_list.
      * intros (pre & post & Heq & Hcat & Hpre). destruct pre as [|p pre]; simpl in Heq.
        -- by injection Heq as <- _.
        -- injection Heq as <- _. destruct (Hpre x); [apply list_elem_of_here|done].
    + rewrite IH. split.
      * intros (pre & post & -> & Hcat & Hpre). exists (x :: pre), post.
        split; [done|]. split; [done|]. intros y [->|Hy]%elem_of_cons; auto.
      * intros (pre & post & Heq & Hcat & Hpre). destruct pre as [|p pre]; simpl in Heq.
        -- injection Heq as <- _. by destruct Hx.
        -- injection Heq as <- ->. exists pre, post. split; [done|]. split; [done|].
           intros y Hy. apply Hpre. by apply list_elem_of_further.
Qed.

Lemma find_category_none cat response :
  find_category cat response = None ↔ ∀ x, x ∈ response → category x ≠ cat.
Proof.
  unfold find_category. induction response as [|x xs IH]; simpl.
  - split; [intros; in_list|done].
  - case_bool_decide as Hx.
    + split; [done|]. intros H. destruct (H x); [apply list_elem_of_here|done].
    + rewrite IH. split.
      * intros H y [->|Hy]%elem_of_cons; auto.
      * intros H y Hy. apply H. by apply list_elem_of_further.
Qed.

Lemma find_category_entry cat response :
  entry_for cat response (find_category cat response).
Proof.
  destruct (find_category cat response) as [item|] eqn:H; simpl.
  - by apply find_category_first.
  - by apply find_category_none.
Qed.

Lemma verdict_over_the_entries response :
  none_at_or_above 2 (categories_results response) = true ↔
  ∀ cat item, first_entry cat response item → (severity item < 2)%Z.
Proof.
  rewrite none_at_or_above_iff. split.
  - intros H cat item Hf%find_category_first. apply (H (Some item)); [|done].
    unfold categories_results. cbn [fmap list_fmap snd]. rewrite <- Hf.
    destruct cat; in_here.
  - intros H result r Hin ->.
    unfold categories_results in Hin. cbn [fmap list_fmap snd] in Hin.
    in_list; symmetry in Hin; apply find_category_first in Hin; eauto.
Qed.

(** C2.  When the Content Safety call answers, [analyze_text] returns the
    verdict together with the four results hate, self_harm, sexual and
    violence, each the first entry of the answer that carries the
    category, or nothing when the answer has no entry for it.  The verdict
    is safe exactly when every such entry has a severity below 2: an
    absent category counts as severity 0, one category at 2 or above makes
    the verdict unsafe, and when the answer has one entry per category the
    verdict is safe exactly when every entry of the answer is below 2. *)
Theorem analyze_text_verdict env text response w :
  content_safety_reply env text = Ok response →
  ∃ is_safe results w',
    analyze_text env text w = (Ok (Some (is_safe, results)), w') ∧
    (∃ hate self_harm sexual violence,
       results = [("hate", hate); ("self_harm", self_harm);
                  ("sexual", sexual); ("violence", violence)] ∧
       entry_for HATE response hate ∧
       entry_for SELF_HARM response self_harm ∧
       entry_for SEXUAL response sexual ∧
       entry_for VIOLENCE response violence) ∧
    (is_safe = true ↔
       ∀ cat item, first_entry cat response item → (severity item < 2)%Z) ∧
    ((∃ cat item, first_entry cat response item ∧ (2 ≤ severity item)%Z) →
     is_safe = false) ∧
    (is_safe = true ↔
       ∀ result r, result ∈ results.*2 → result = Some r → (severity r < 2)%Z) ∧
    (is_safe = true ↔
       ∀ result, result ∈ results.*2 → (severity_or_zero result < 2)%Z) ∧
    (NoDup (category <$> response) →
     (is_safe = true ↔ ∀ item, item ∈ response → (severity item < 2)%Z)).
Proof.
  intros Hreply. rewrite (analyze_text_ok _ _ _ _ Hreply).
  eexists _, _, _. split; [reflexivity|]. split.
  { eexists _, _, _, _. split; [reflexivity|].
    repeat split; apply find_category_entry. }
  split; [apply verdict_over_the_entries|]. split.
  { intros (cat & item & Hf & Hsev). apply not_true_iff_false. intros Hsafe.
    pose proof (proj1 (verdict_over_the_entries _) Hsafe cat item Hf). lia. }
  split; [apply none_at_or_above_iff|].
  split; [by apply none_at_or_above_zero|].
  apply verdict_over_the_answer.
Qed.

Lemma analyze_text_verdict_witness :
  ∃ is_safe results w',
    analyze_text (healthy t1) "Hello" new_world = (Ok (Some (is_safe, results)), w') ∧
    (∃ hate self_harm sexual violence,
       results = [("hate", hate); ("self_harm", self_harm);
                  ("sexual", sexual); ("violence", violence)] ∧
       entry_for HATE calm hate ∧
       entry_for SELF_HARM calm self_harm ∧
       entry_for SEXUAL calm sexual ∧
       entry_for VIOLENCE calm violence) ∧
    (is_safe = true ↔
       ∀ cat item, first_entry cat calm item → (severity item < 2)%Z) ∧
    ((∃ cat item, first_entry cat calm item ∧ (2 ≤ severity item)%Z) →
     is_safe = false) ∧
    (is_safe = true ↔
       ∀ result r, result ∈ results.*2 → result = Some r → (severity r < 2)%Z) ∧
    (is_safe = true ↔
       ∀ result, result ∈ results.*2 → (severity_or_zero result < 2)%Z) ∧
    (NoDup (category <$> calm) →
     (is_safe = true ↔ ∀ item, item ∈ calm → (severity item < 2)%Z)).
Proof. apply (analyze_text_verdict (healthy t1) "Hello" calm new_world). reflexivity. Defined.

(** ** A failing classifier *)

(** An [HttpResponseError] of the classifier is caught and logged inside
    [analyze_text], which then returns [None]; unpacking that in [main]
    raises, with nothing read, generated or stored. *)
Lemma caught_classifier_failure_raises user_id line env w e :
  is_message line →
  content_safety_reply env line = Raise e →
  isinstance e HttpResponseError = true →
  loop_body user_id line env w =
    (Raise unpack_error,
     emit (Printed ("Failed to analyze text. Error: " ++ exn_msg e))
       (record (CallAnalyzeText line) (Some e) (emit (Prompt "You: ") w))).
Proof.
  intros Hmsg Hreply Hi.
  pose proof (loop_body_message user_id line env w Hmsg) as Hpass.
  inversion Hpass; subst; congruence.
Qed.

Lemma caught_classifier_failure_ends_session user_id pre line env post w w1 e :
  main_loop user_id pre w = (Ok AwaitingInput, w1) →
  is_message line →
  content_safety_reply env line = Raise e →
  isinstance e HttpResponseError = true →
  ∃ w2, main_loop user_id (pre ++ (line, env) :: post) w = (Raise unpack_error, w2) ∧
        container w2 = container w1 ∧
        trace w2 = (trace w1 ++ [{| call := CallAnalyzeText line; raised := Some e |}])%list.
Proof.
  intros Hpre Hmsg Hreply Hi. eexists. split; [|split].
  - rewrite (main_loop_app _ _ _ _ _ Hpre).
    apply main_loop_raise. by apply caught_classifier_failure_raises.
  - reflexivity.
  - reflexivity.
Qed.

(** C3.  The code at the failing input: the classifier answers "Hello"
    with an [HttpResponseError].  The error is caught and logged and
    nothing is read, generated or stored, but the session does not go back
    to the prompt: it ends with the [TypeError] of the unpacking, and the
    next line is never read. *)
Theorem classification_failure_ends_the_session :
  main "alice" [("Hello", classifier_down t1); ("history", healthy t2)] new_world =
    (Raise unpack_error,
     {| container := ∅;
        stdout := [Prompt "User ID: "; Prompt "You: ";
                   Printed "Failed to analyze text. Error: (503) Service Unavailable"];
        trace := [{| call := CallAnalyzeText "Hello"; raised := Some unavailable |}] |}).
Proof. reflexivity. Qed.

(** ** When a turn is written *)

Lemma written_attempted evs : written evs → write_attempted evs.
Proof. intros (doc & H). by exists doc, None. Qed.

(** C1, as the code has it.  Over one pass on a chat message: a turn is
    written exactly when the verdict was safe, a response was generated and
    the upsert itself did not fail; the write is attempted exactly when the
    verdict was safe and a response was generated; the document handed to
    the store always carries the message together with the response
    generated for it; and the container changes by that one upsert or not
    at all. *)
Theorem turn_written_iff user_id line env w r w' evs :
  is_message line →
  loop_body user_id line env w = (r, w') →
  trace w' = (trace w ++ evs)%list →
  (written evs ↔
     verdict env line = Some true ∧ generated evs ∧ upsert_fault env = None) ∧
  (write_attempted evs ↔ verdict env line = Some true ∧ generated evs) ∧
  (∀ doc o, {| call := CallUpsertItem doc; raised := o |} ∈ evs →
     ∃ chat_response,
       kernel_reply env line (history_in user_id w) = Ok chat_response ∧
       doc = interaction (now env) user_id line chat_response) ∧
  (∀ doc, {| call := CallUpsertItem doc; raised := None |} ∈ evs →
     container w' = upsert doc (container w)) ∧
  (¬ written evs → container w' = container w).
Proof.
  intros Hmsg Hrun Htrace.
  pose proof (loop_body_message user_id line env w Hmsg) as Hpass.
  rewrite Hrun in Hpass. unfold written, write_attempted, generated.
  pass_cases Hpass Htrace; (repeat split); ev_solve.
Qed.

Lemma turn_written_iff_witness :
  let p := loop_body "alice" "Hello" (healthy t1) new_world in
  (written (trace p.2) ↔
     verdict (healthy t1) "Hello" = Some true ∧ generated (trace p.2) ∧
     upsert_fault (healthy t1) = None) ∧
  (write_attempted (trace p.2) ↔
     verdict (healthy t1) "Hello" = Some true ∧ generated (trace p.2)) ∧
  (∀ doc o, {| call := CallUpsertItem doc; raised := o |} ∈ trace p.2 →
     ∃ chat_response,
       kernel_reply (healthy t1) "Hello" (history_in "alice" new_world) = Ok chat_response ∧
       doc = interaction (now (healthy t1)) "alice" "Hello" chat_response) ∧
  (∀ doc, {| call := CallUpsertItem doc; raised := None |} ∈ trace p.2 →
     container p.2 = upsert doc (container new_world)) ∧
  (¬ written (trace p.2) → container p.2 = container new_world).
Proof.
  apply (turn_written_iff "alice" "Hello" (healthy t1) new_world
           (loop_body "alice" "Hello" (healthy t1) new_world).1).
  - by vm_compute.
  - reflexivity.
  - reflexivity.
Defined.

(** C1, read literally, fails when the store refuses the upsert: the
    verdict is safe and the response was generated, yet no turn is
    written. *)
Lemma written_iff_safe_and_generated_fails : ¬ written_iff_safe_and_generated.
Proof.
  intros Hclaim.
  destruct (Hclaim "alice" "Hello" (upsert_down t1) new_world
              (Raise store_unavailable)
              (loop_body "alice" "Hello" (upsert_down t1) new_world).2
              [{| call := CallAnalyzeText "Hello"; raised := None |};
               {| call := CallQueryItems true "alice"; raised := None |};
               {| call := CallInvoke "Hello" ""; raised := None |};
               {| call := CallUpsertItem (interaction t1 "alice" "Hello" "You said: Hello");
                  raised := Some store_unavailable |}])
    as [_ Hwritten].
  - by vm_compute.
  - reflexivity.
  - reflexivity.
  - destruct Hwritten as (doc & Hin).
    + split; [reflexivity|]. exists "Hello", "". in_here.
    + in_list; discriminate.
Qed.

(** ** Chat messages, the empty line among them *)

Lemma message_is_classified user_id line env w :
  is_message line →
  ∃ rest,
    trace (loop_body user_id line env w).2 =
      (trace w ++ {| call := CallAnalyzeText line;
                     raised := exn_of (content_safety_reply env line) |} :: rest)%list.
Proof.
  intros Hmsg.
  pose proof (loop_body_message user_id line env w Hmsg) as Hpass.
  destruct (loop_body user_id line env w) as [r w'].
  inversion Hpass; subst; clear Hpass;
    match goal with H : content_safety_reply _ _ = _ |- _ => rewrite H end;
    cbn [snd exn_of]; proj; rewrite ?trace_reported; proj; rewrite <- ?app_assoc;
    eexists; reflexivity.
Qed.

Lemma safe_message_is_stored user_id line env w chat_response :
  is_message line →
  verdict env line = Some true →
  query_fault env = None →
  kernel_reply env line (history_in user_id w) = Ok chat_response →
  upsert_fault env = None →
  ∃ w', loop_body user_id line env w = (Ok Continue, w') ∧
        container w' = upsert (interaction (now env) user_id line chat_response) (container w) ∧
        Printed ("Chatbot: " ++ chat_response) ∈ stdout w'.
Proof.
  intros Hmsg Hv Hq Hk Hu.
  pose proof (loop_body_message user_id line env w Hmsg) as Hpass.
  destruct (loop_body user_id line env w) as [r w'].
  inversion Hpass; subst; clear Hpass;
    try match goal with
        | H : content_safety_reply _ _ = Raise _ |- _ => apply verdict_raise in H
        end;
    try congruence.
  match goal with
  | H : kernel_reply _ _ _ = Ok ?c |- _ =>
      assert (c = chat_response) as -> by congruence
  end.
  eexists. split; [reflexivity|]. split.
  - reflexivity.
  - proj. apply elem_of_app. right. apply list_elem_of_here.
Qed.

Lemma safe_message_pass user_id line env w chat_response :
  is_message line →
  verdict env line = Some true →
  query_fault env = None →
  kernel_reply env line (history_in user_id w) = Ok chat_response →
  upsert_fault env = None →
  ∃ response,
    content_safety_reply env line = Ok response ∧
    loop_body user_id line env w =
      (Ok Continue,
       record (CallUpsertItem (interaction (now env) user_id line chat_response)) None
         (set_container
            (upsert (interaction (now env) user_id line chat_response) (container w))
            (emit (Printed ("Chatbot: " ++ chat_response))
               (record (CallInvoke line (history_in user_id w)) None
                  (record (CallQueryItems true user_id) None
                     (reported response
                        (record (CallAnalyzeText line) None
                           (emit (Prompt "You: ") w)))))))).
Proof.
  intros Hmsg Hv Hq Hk Hu.
  pose proof (loop_body_message user_id line env w Hmsg) as Hpass.
  destruct (loop_body user_id line env w) as [r w'].
  inversion Hpass; subst; clear Hpass;
    try match goal with
        | H : content_safety_reply _ _ = Raise _ |- _ => apply verdict_raise in H
        end;
    try congruence.
  match goal with
  | H : kernel_reply _ _ _ = Ok ?c |- _ =>
      assert (c = chat_response) as -> by congruence
  end.
  by eexists.
Qed.

(** C10.  The empty line is none of the commands.  It goes to the
    classifier as it is.  When the verdict is safe and the calls succeed,
    the pass makes the four calls of any chat message (classification,
    history query, chat function, upsert), prints the response, and the
    store then holds under the user's id and the id rendered from the
    clock the turn with the empty user message and that response, every
    other document being as before. *)
Theorem empty_line_is_a_chat_message user_id env w :
  is_message "" ∧
  (∃ rest,
     trace (loop_body user_id "" env w).2 =
       (trace w ++ {| call := CallAnalyzeText "";
                      raised := exn_of (content_safety_reply env "") |} :: rest)%list) ∧
  (∀ chat_response,
     verdict env "" = Some true →
     query_fault env = None →
     kernel_reply env "" (history_in user_id w) = Ok chat_response →
     upsert_fault env = None →
     ∃ w', loop_body user_id "" env w = (Ok Continue, w') ∧
           trace w' =
             (trace w ++
              [{| call := CallAnalyzeText ""; raised := None |};
               {| call := CallQueryItems true user_id; raised := None |};
               {| call := CallInvoke "" (history_in user_id w); raised := None |};
               {| call := CallUpsertItem
                            {| id := str_timestamp (now env);
                               user_message := "";
                               bot_response := chat_response;
                               timestamp := isoformat (now env);
                               userId := user_id |};
                  raised := None |}])%list ∧
           container w' !! (user_id, str_timestamp (now env)) =
             Some {| body_user_message := "";
                     body_bot_response := chat_response;
                     body_timestamp := isoformat (now env) |} ∧
           (∀ k, k ≠ (user_id, str_timestamp (now env)) →
                 container w' !! k = container w !! k) ∧
           container w' = upsert (interaction (now env) user_id "" chat_response) (container w) ∧
           Printed ("Chatbot: " ++ chat_response) ∈ stdout w').
Proof.
  assert (is_message "") as Hmsg by done.
  split; [done|]. split.
  - by apply message_is_classified.
  - intros chat_response Hv Hq Hk Hu.
    destruct (safe_message_pass user_id "" env w chat_response Hmsg Hv Hq Hk Hu)
      as (response & _ & Hrun).
    eexists. split; [exact Hrun|]. proj. rewrite trace_reported. proj.
    split; [by rewrite <- !app_assoc|].
    unfold upsert, interaction, doc_key, doc_body.
    cbn [id userId user_message bot_response timestamp].
    split; [apply lookup_insert_eq|].
    split; [intros k Hne; by apply lookup_insert_ne|].
    split; [done|].
    apply elem_of_app. right. apply list_elem_of_here.
Qed.

Lemma empty_line_is_a_chat_message_witness :
  ∃ w', loop_body "alice" "" (healthy t1) new_world = (Ok Continue, w') ∧
        trace w' =
          ([] ++
           [{| call := CallAnalyzeText ""; raised := None |};
            {| call := CallQueryItems true "alice"; raised := None |};
            {| call := CallInvoke "" (history_in "alice" new_world); raised := None |};
            {| call := CallUpsertItem
                         {| id := "1730635200.25";
                            user_message := "";
                            bot_response := "You said: ";
                            timestamp := "2024-11-03T12:00:00.250000+00:00";
                            userId := "alice" |};
               raised := None |}])%list ∧
        container w' !! ("alice", "1730635200.25") =
          Some {| body_user_message := "";
                  body_bot_response := "You said: ";
                  body_timestamp := "2024-11-03T12:00:00.250000+00:00" |} ∧
        (∀ k, k ≠ ("alice", "1730635200.25") →
              container w' !! k = (∅ : Container) !! k) ∧
        container w' = upsert (interaction t1 "alice" "" "You said: ") ∅ ∧
        Printed "Chatbot: You said: " ∈ stdout w'.
Proof.
  destruct (empty_line_is_a_chat_message "alice" (healthy t1) new_world) as (_ & _ & H).
  apply (H "You said: "); reflexivity.
Defined.

(** ** The documents of the container *)

Lemma doc_of_key_body d : doc_of (doc_key d, doc_body d) = d.
Proof. by destruct d. Qed.

Lemma doc_key_of kb : doc_key (doc_of kb) = kb.1.
Proof. by destruct kb as [[u i] b]. Qed.

Lemma doc_body_of kb : doc_body (doc_of kb) = kb.2.
Proof. by destruct kb as [[u i] [m r t]]. Qed.

Global Instance doc_of_inj : Inj (=) (=) doc_of.
Proof.
  intros [k1 b1] [k2 b2] H.
  pose proof (f_equal doc_key H) as Hk. pose proof (f_equal doc_body H) as Hb.
  rewrite !doc_key_of in Hk. rewrite !doc_body_of in Hb. simpl in *. congruence.
Qed.

Lemma elem_of_docs (c : Container) d :
  d ∈ docs c ↔ c !! doc_key d = Some (doc_body d).
Proof.
  unfold docs. rewrite list_elem_of_fmap. split.
  - intros ([k b] & -> & Hin). rewrite doc_key_of, doc_body_of.
    by apply elem_of_map_to_list.
  - intros Hin. exists (doc_key d, doc_body d). split.
    + by rewrite doc_of_key_body.
    + by apply elem_of_map_to_list.
Qed.

Lemma NoDup_docs (c : Container) : NoDup (docs c).
Proof. unfold docs. apply NoDup_fmap_2; [apply _|apply NoDup_map_to_list]. Qed.

Lemma NoDup_doc_keys (c : Container) : NoDup (doc_key <$> docs c).
Proof.
  unfold docs. rewrite <- list_fmap_compose.
  rewrite (list_fmap_ext (doc_key ∘ doc_of) fst (map_to_list c)).
  - apply NoDup_fst_map_to_list.
  - intros i kb _. apply doc_key_of.
Qed.

Global Instance ts_desc_total : Total ts_desc.
Proof. intros a b. unfold ts_desc. destruct (total String.le (timestamp a) (timestamp b)); auto. Qed.

Global Instance ts_desc_trans : Transitive ts_desc.
Proof. intros a b c Hab Hbc. unfold ts_desc in *. by etrans. Qed.

Lemma select_Permutation (o : bool) (user : string) (c : Container) :
  select o user c ≡ₚ select false user c.
Proof. destruct o; simpl; [apply merge_sort_Permutation|done]. Qed.

Lemma elem_of_select (o : bool) (user : string) (c : Container) (d : Item) :
  d ∈ select o user c ↔ userId d = user ∧ d ∈ docs c.
Proof. rewrite select_Permutation. unfold select. by rewrite list_elem_of_filter. Qed.

Lemma NoDup_select (o : bool) (user : string) (c : Container) : NoDup (select o user c).
Proof.
  rewrite select_Permutation. unfold select. apply NoDup_filter, NoDup_docs.
Qed.

Lemma select_stored (o : bool) (user : string) (c : Container) (d : Item) :
  d ∈ select o user c → c !! (user, id d) = Some (doc_body d).
Proof.
  intros [Hu Hin%elem_of_docs]%elem_of_select. unfold doc_key in Hin. by rewrite Hu in Hin.
Qed.

Lemma select_sorted (user : string) (c : Container) : StronglySorted ts_desc (select true user c).
Proof. apply StronglySorted_merge_sort; apply _. Qed.

(** ** Writing a turn *)

(** C9.  When the store serves the upsert, [_store_interaction_sync]
    returns normally and the container holds, under the session's user id
    and the id rendered from the current time, the document with the
    message, the response and the ISO rendering of that same time.  A
    document already stored under that user id and id is replaced, without
    error and without a second copy; every other document stays. *)
Theorem store_interaction_upserts env user_id message response w :
  upsert_fault env = None →
  ∃ doc w',
    _store_interaction_sync env user_id message response w = (Ok tt, w') ∧
    doc = {| id := str_timestamp (now env);
             user_message := message;
             bot_response := response;
             timestamp := isoformat (now env);
             userId := user_id |} ∧
    container w' = <[(user_id, str_timestamp (now env)) := doc_body doc]> (container w) ∧
    doc ∈ select false user_id (container w') ∧
    (∀ d, d ∈ docs (container w') → doc_key d = doc_key doc → d = doc) ∧
    (∀ k, k ≠ (user_id, str_timestamp (now env)) →
          container w' !! k = container w !! k) ∧
    (is_Some (container w !! (user_id, str_timestamp (now env))) →
       size (container w') = size (container w)) ∧
    (container w !! (user_id, str_timestamp (now env)) = None →
       size (container w') = S (size (container w))).
Proof.
  intros Hu. eexists _, _. run. rewrite Hu.
  split; [reflexivity|]. split; [reflexivity|]. proj.
  split; [reflexivity|]. unfold upsert, interaction, doc_key. cbn [id userId].
  split; [|split; [|split; [|split]]].
  - apply elem_of_select. split; [done|]. apply elem_of_docs.
    unfold doc_key. cbn [id userId]. apply lookup_insert_eq.
  - intros [i m r t u] Hd Hk. apply elem_of_docs in Hd.
    unfold doc_key, doc_body in Hd, Hk.
    cbn [id userId user_message bot_response timestamp] in Hd, Hk.
    injection Hk as -> ->. rewrite lookup_insert_eq in Hd.
    by injection Hd as <- <- <-.
  - intros k Hk. by apply lookup_insert_ne.
  - apply map_size_insert_Some.
  - apply map_size_insert_None.
Qed.

Lemma store_interaction_upserts_witness :
  ∃ doc w',
    _store_interaction_sync (healthy t1) "alice" "Hello" "Hi!" new_world = (Ok tt, w') ∧
    doc = {| id := "1730635200.25";
             user_message := "Hello";
             bot_response := "Hi!";
             timestamp := "2024-11-03T12:00:00.250000+00:00";
             userId := "alice" |} ∧
    container w' = <[("alice", "1730635200.25") := doc_body doc]> ∅ ∧
    doc ∈ select false "alice" (container w') ∧
    (∀ d, d ∈ docs (container w') → doc_key d = doc_key doc → d = doc) ∧
    (∀ k, k ≠ ("alice", "1730635200.25") → container w' !! k = (∅ : Container) !! k) ∧
    (is_Some ((∅ : Container) !! ("alice", "1730635200.25")) →
       size (container w') = size (∅ : Container)) ∧
    ((∅ : Container) !! ("alice", "1730635200.25") = None →
       size (container w') = S (size (∅ : Container))).
Proof.
  apply (store_interaction_upserts (healthy t1) "alice" "Hello" "Hi!" new_world).
  reflexivity.
Defined.

(** ** Reading the history *)

Lemma select_length_size (o : bool) (user : string) (c : Container) :
  length (select o user c) =
    size (filter (λ kb : string * string * Body, kb.1.1 = user) c).
Proof.
  rewrite (Permutation_length (select_Permutation o user c)).
  rewrite <- length_map_to_list.
  rewrite <- (length_fmap doc_of
                (map_to_list (filter (λ kb : string * string * Body, kb.1.1 = user) c))).
  apply Permutation_length, NoDup_Permutation.
  - apply NoDup_select.
  - apply (NoDup_docs (filter (λ kb : string * string * Body, kb.1.1 = user) c)).
  - intros d. rewrite elem_of_select.
    change (doc_of <$> map_to_list (filter (λ kb : string * string * Body, kb.1.1 = user) c))
      with (docs (filter (λ kb : string * string * Body, kb.1.1 = user) c)).
    rewrite !elem_of_docs, map_lookup_filter_Some. unfold doc_key. simpl. tauto.
Qed.

(** C4.  When the store serves the query, the history read returns the
    rendering, one "User:" line and one "ChatBot:" line per turn, of at
    most five turns: five, or all when the user has fewer stored; each a
    stored turn of that user, no turn twice; in descending order of
    timestamp; and every stored turn of the user is among them unless
    five turns at least as recent are. *)
Theorem load_history_most_recent_five env user_id w :
  query_fault env = None →
  ∃ history_items,
    _load_historical_context_sync env user_id w =
      (Ok (String.concat LF
             ((λ item, "User: " ++ user_message item ++ LF ++
                       "ChatBot: " ++ bot_response item) <$> history_items)),
       record (CallQueryItems true user_id) None w) ∧
    (length history_items ≤ 5)%nat ∧
    length history_items =
      min 5 (size (filter (λ kb : string * string * Body, kb.1.1 = user_id)
                     (container w))) ∧
    NoDup history_items ∧
    (∀ d, d ∈ history_items →
          userId d = user_id ∧
          container w !! (user_id, id d) =
            Some {| body_user_message := user_message d;
                    body_bot_response := bot_response d;
                    body_timestamp := timestamp d |}) ∧
    StronglySorted (λ a b, String.le (timestamp b) (timestamp a)) history_items ∧
    (∀ i b, container w !! (user_id, i) = Some b →
            {| id := i;
               user_message := body_user_message b;
               bot_response := body_bot_response b;
               timestamp := body_timestamp b;
               userId := user_id |} ∈ history_items ∨
            (length history_items = 5%nat ∧
             ∀ d, d ∈ history_items → String.le (body_timestamp b) (timestamp d))).
Proof.
  intros Hq. exists (take 5 (select true user_id (container w))).
  run. rewrite Hq. split; [reflexivity|].
  pose proof (select_sorted user_id (container w)) as Hsorted.
  rewrite <- (take_drop 5 (select true user_id (container w))) in Hsorted.
  split; [|split; [|split; [|split; [|split]]]].
  - rewrite length_take. lia.
  - by rewrite length_take, select_length_size.
  - eapply sublist_NoDup; [apply NoDup_select|apply sublist_take].
  - intros d Hd.
    assert (d ∈ select true user_id (container w)) as Hs
      by (eapply elem_of_sublist; [apply Hd|apply sublist_take]).
    split; [by apply elem_of_select in Hs as [? _]|].
    exact (select_stored _ _ _ _ Hs).
  - by apply StronglySorted_app_1_l in Hsorted.
  - intros i b Hb.
    set (d' := {| id := i; user_message := body_user_message b;
                  bot_response := body_bot_response b;
                  timestamp := body_timestamp b; userId := user_id |}).
    assert (d' ∈ select true user_id (container w)) as Hin.
    { apply elem_of_select. split; [done|]. apply elem_of_docs.
      unfold doc_key, doc_body, d'. cbn [id userId user_message bot_response timestamp].
      rewrite Hb. by destruct b. }
    rewrite <- (take_drop 5 (select true user_id (container w))) in Hin.
    apply elem_of_app in Hin as [Hin|Hin]; [by left|right]. split.
    + rewrite length_take.
      destruct (decide (length (select true user_id (container w)) ≤ 5)%nat) as [Hle|]; [|lia].
      rewrite drop_ge in Hin by done. in_list.
    + intros d Hd.
      exact (StronglySorted_app_1_elem_of _ _ _ _ _ Hsorted Hd Hin).
Qed.

Lemma load_history_most_recent_five_witness :
  ∃ history_items,
    _load_historical_context_sync (healthy t1) "alice" busy_world =
      (Ok (String.concat LF
             ((λ item, "User: " ++ user_message item ++ LF ++
                       "ChatBot: " ++ bot_response item) <$> history_items)),
       record (CallQueryItems true "alice") None busy_world) ∧
    (length history_items ≤ 5)%nat ∧
    length history_items =
      min 5 (size (filter (λ kb : string * string * Body, kb.1.1 = "alice") busy)) ∧
    NoDup history_items ∧
    (∀ d, d ∈ history_items →
          userId d = "alice" ∧
          busy !! ("alice", id d) =
            Some {| body_user_message := user_message d;
                    body_bot_response := bot_response d;
                    body_timestamp := timestamp d |}) ∧
    StronglySorted (λ a b, String.le (timestamp b) (timestamp a)) history_items ∧
    (∀ i b, busy !! ("alice", i) = Some b →
            {| id := i;
               user_message := body_user_message b;
               bot_response := body_bot_response b;
               timestamp := body_timestamp b;
               userId := "alice" |} ∈ history_items ∨
            (length history_items = 5%nat ∧
             ∀ d, d ∈ history_items → String.le (body_timestamp b) (timestamp d))).
Proof.
  apply (load_history_most_recent_five (healthy t1) "alice" busy_world).
  reflexivity.
Defined.

(** On the sample store the read keeps turns 6 down to 2 of alice, the
    most recent first. *)
Example load_history_busy :
  (_load_historical_context_sync (healthy t1) "alice" busy_world).1 =
    Ok ("User: question 6" ++ LF ++ "ChatBot: answer 6" ++ LF ++
        "User: question 5" ++ LF ++ "ChatBot: answer 5" ++ LF ++
        "User: question 4" ++ LF ++ "ChatBot: answer 4" ++ LF ++
        "User: question 3" ++ LF ++ "ChatBot: answer 3" ++ LF ++
        "User: question 2" ++ LF ++ "ChatBot: answer 2").
Proof. by vm_compute. Qed.

(** ** Clearing the history *)

Lemma delete_item_cases env item pk w :
  (∃ e, delete_fault env (id item) = Some e ∧
        container_delete_item env item pk w =
          (Raise e, record (CallDeleteItem (id item) pk) (Some e) w)) ∨
  (delete_fault env (id item) = None ∧ is_Some (container w !! (pk, id item)) ∧
   container_delete_item env item pk w =
     (Ok tt, record (CallDeleteItem (id item) pk) None
               (set_container (delete (pk, id item) (container w)) w))) ∨
  (delete_fault env (id item) = None ∧ container w !! (pk, id item) = None ∧
   container_delete_item env item pk w =
     (Raise not_found, record (CallDeleteItem (id item) pk) (Some not_found) w)).
Proof.
  unfold container_delete_item.
  destruct (delete_fault env (id item)) as [e|]; [left; eauto|].
  destruct (container w !! (pk, id item)) as [b|] eqn:Hb; [right; left|right; right]; eauto.
Qed.

(** The loop of deletions keeps the standard output, touches only the
    documents it is given, records only its own calls, and stops at the
    first call that raises. *)
Lemma delete_loop_spec env user_id items w r w' :
  for_each items (λ item, container_delete_item env item user_id) w = (r, w') →
  stdout w' = stdout w ∧
  (∀ k, (∀ item, item ∈ items → k ≠ (user_id, id item)) →
        container w' !! k = container w !! k) ∧
  ∃ evs, trace w' = (trace w ++ evs)%list ∧
         (∀ ev, ev ∈ evs → ∃ i, call ev = CallDeleteItem i user_id) ∧
         (∀ c e, {| call := c; raised := Some e |} ∈ evs → r = Raise e).
Proof.
  revert w. induction items as [|x xs IH]; intros w; simpl.
  - intros [= <- <-]. split; [done|]. split; [done|].
    exists []. rewrite app_nil_r. split; [done|]. split; intros; in_list.
  - unfold mbind, M_bind.
    destruct (delete_item_cases env x user_id w)
      as [(e & _ & ->)|[(_ & _ & ->)|(_ & _ & ->)]].
    + intros [= <- <-]. proj. split; [done|]. split; [done|].
      eexists [_]. split; [done|]. split.
      * intros ev Hev. in_list. subst. by eexists.
      * intros c e' Hev. in_list. by simplify_eq.
    + intros (Hout & Hframe & evs & Htr & Hcalls & Hfail)%IH. proj in Hout.
      proj in Hframe. proj in Htr. split; [done|]. split.
      * intros k Hk. rewrite Hframe.
        -- apply lookup_delete_ne. intros <-. eapply Hk; [apply list_elem_of_here|done].
        -- intros item Hin. apply Hk. by apply list_elem_of_further.
      * eexists (_ :: evs). rewrite Htr, <- app_assoc. split; [done|]. split.
        -- intros ev Hev. apply elem_of_cons in Hev as [->|Hev]; [by eexists|eauto].
        -- intros c e Hev. apply elem_of_cons in Hev as [Hev|Hev]; [done|eauto].
    + intros [= <- <-]. proj. split; [done|]. split; [done|].
      eexists [_]. split; [done|]. split.
      * intros ev Hev. in_list. subst. by eexists.
      * intros c e' Hev. in_list. by simplify_eq.
Qed.

Lemma delete_loop_ok env user_id items w :
  (∀ i, delete_fault env i = None) →
  NoDup (id <$> items) →
  (∀ item, item ∈ items → is_Some (container w !! (user_id, id item))) →
  ∃ w', for_each items (λ item, container_delete_item env item user_id) w = (Ok tt, w') ∧
        ∀ item, item ∈ items → container w' !! (user_id, id item) = None.
Proof.
  intros Hfault. revert w. induction items as [|x xs IH]; intros w Hdup Hin.
  - exists w. split; [done|]. intros; in_list.
  - apply NoDup_cons in Hdup as [Hx Hdup].
    destruct (delete_item_cases env x user_id w)
      as [(e & He & _)|[(_ & _ & Hrun)|(_ & Hnone & _)]].
    + by rewrite Hfault in He.
    + destruct (IH (record (CallDeleteItem (id x) user_id) None
                      (set_container (delete (user_id, id x) (container w)) w)) Hdup)
        as (w' & Hrest & Hgone).
      { intros item Hitem. proj. rewrite lookup_delete_ne.
        - apply Hin. by apply list_elem_of_further.
        - intros [= Heq]. apply Hx. rewrite Heq. by apply list_elem_of_fmap_2. }
      exists w'. split.
      * simpl. by erewrite bind_ok.
      * intros item [->|Hitem]%elem_of_cons; [|by apply Hgone].
        destruct (delete_loop_spec _ _ _ _ _ _ Hrest) as (_ & Hframe & _).
        rewrite Hframe; [proj; apply lookup_delete_eq|].
        intros item Hitem [= Heq]. apply Hx. rewrite Heq. by apply list_elem_of_fmap_2.
    + destruct (Hin x) as [b Hb]; [apply list_elem_of_here|congruence].
Qed.

Lemma select_ids_NoDup (o : bool) (user : string) (c : Container) :
  NoDup (id <$> select o user c).
Proof.
  rewrite select_Permutation. unfold select.
  apply (NoDup_fmap_1 (λ i, (user, i))). rewrite <- list_fmap_compose.
  rewrite (list_fmap_ext _ doc_key (filter (λ d, userId d = user) (docs c))).
  - eapply sublist_NoDup; [apply NoDup_doc_keys|]. apply fmap_sublist, sublist_filter.
  - intros i d Hd. apply list_elem_of_lookup_2, list_elem_of_filter in Hd as [<- _].
    reflexivity.
Qed.

(** C7.  Whatever the store holds and however the calls turn out, clearing
    leaves every turn of every other user as it was; and when the store
    serves the query and the deletions, clearing returns normally and no
    turn of the given user is left. *)
Theorem clear_deletes_the_users_turns_only env user_id w :
  (∀ k, k.1 ≠ user_id →
        container (_clear_historical_context_sync env user_id w).2 !! k = container w !! k) ∧
  (query_fault env = None → (∀ i, delete_fault env i = None) →
   (_clear_historical_context_sync env user_id w).1 = Ok tt ∧
   (∀ k, k.1 = user_id →
         container (_clear_historical_context_sync env user_id w).2 !! k = None) ∧
   select false user_id (container (_clear_historical_context_sync env user_id w).2) = []).
Proof.
  unfold _clear_historical_context_sync, container_query_items, mbind, M_bind.
  destruct (query_fault env) as [e|] eqn:Hq; [by split|].
  proj. set (w0 := record (CallQueryItems false user_id) None w).
  set (items := select false user_id (container w)). split.
  - intros k Hk.
    destruct (for_each items (λ item, container_delete_item env item user_id) w0)
      as [r w'] eqn:Hrun.
    destruct (delete_loop_spec _ _ _ _ _ _ Hrun) as (_ & Hframe & _).
    simpl. rewrite Hframe; [done|]. intros item _ ->. by apply Hk.
  - intros _ Hfault.
    destruct (delete_loop_ok env user_id items w0 Hfault) as (w' & Hrun & Hgone).
    { apply select_ids_NoDup. }
    { intros item [Hu Hin%elem_of_docs]%elem_of_select. unfold doc_key in Hin.
      rewrite Hu in Hin. unfold w0. proj. by rewrite Hin. }
    rewrite Hrun. simpl. split; [done|].
    assert (∀ k, k.1 = user_id → container w' !! k = None) as Hnone.
    { intros [u i] Hk. simpl in Hk. subst u.
      destruct (container w !! (user_id, i)) as [b|] eqn:Hb.
      - apply (Hgone (doc_of ((user_id, i), b))).
        apply elem_of_select. split; [done|]. apply elem_of_docs.
        by rewrite doc_key_of, doc_body_of.
      - destruct (delete_loop_spec _ _ _ _ _ _ Hrun) as (_ & Hframe & _).
        rewrite Hframe; [done|].
        intros item [Hu Hin%elem_of_docs]%elem_of_select [= Heq].
        unfold doc_key in Hin. rewrite Hu, <- Heq in Hin. congruence. }
    split; [done|].
    apply elem_of_nil_inv. intros d [Hu Hin%elem_of_docs]%(elem_of_select false).
    rewrite Hnone in Hin; [done|]. by rewrite <- Hu.
Qed.

Lemma clear_deletes_the_users_turns_only_witness :
  (_clear_historical_context_sync (healthy t1) "alice" busy_world).1 = Ok tt ∧
  (∀ k, k.1 = "alice" →
        container (_clear_historical_context_sync (healthy t1) "alice" busy_world).2 !! k
        = None) ∧
  select false "alice"
    (container (_clear_historical_context_sync (healthy t1) "alice" busy_world).2) = [].
Proof.
  apply (clear_deletes_the_users_turns_only (healthy t1) "alice" busy_world).
  - reflexivity.
  - intros i. reflexivity.
Defined.

(** On the sample store clearing alice leaves exactly the turn of bob. *)
Example clear_busy :
  docs (container (_clear_historical_context_sync (healthy t1) "alice" busy_world).2) =
    [turn "bob" "7" "07"].
Proof. vm_compute. reflexivity. Qed.

Lemma select_empty_history (o : bool) (user : string) (c : Container) :
  (∀ k, k.1 = user → c !! k = None) → select o user c = [].
Proof.
  intros Hnone. apply elem_of_nil_inv.
  intros d [Hu Hin%elem_of_docs]%elem_of_select.
  rewrite Hnone in Hin; [done|]. by rewrite <- Hu.
Qed.

(** C8.  On a store whose query for the user's turns comes back empty,
    clearing twice returns normally both times, issues no deletion, and
    leaves the container as it was after each call. *)
Theorem clear_twice_on_empty_history env1 env2 user_id w :
  query_fault env1 = None →
  query_fault env2 = None →
  select false user_id (container w) = [] →
  ∃ w1 w2,
    _clear_historical_context_sync env1 user_id w = (Ok tt, w1) ∧
    container w1 = container w ∧
    _clear_historical_context_sync env2 user_id w1 = (Ok tt, w2) ∧
    container w2 = container w ∧
    trace w2 = (trace w ++ [{| call := CallQueryItems false user_id; raised := None |};
                            {| call := CallQueryItems false user_id; raised := None |}])%list.
Proof.
  intros Hq1 Hq2 Hsel.
  eexists _, _. run. rewrite Hq1, Hq2. proj. rewrite Hsel.
  split; [reflexivity|]. split; [reflexivity|]. proj. rewrite Hsel.
  split; [reflexivity|]. split; [reflexivity|]. proj. by rewrite <- app_assoc.
Qed.

Lemma clear_twice_on_empty_history_witness :
  ∃ w1 w2,
    _clear_historical_context_sync (healthy t1) "carol" busy_world = (Ok tt, w1) ∧
    container w1 = busy ∧
    _clear_historical_context_sync (healthy t2) "carol" w1 = (Ok tt, w2) ∧
    container w2 = busy ∧
    trace w2 = [{| call := CallQueryItems false "carol"; raised := None |};
                {| call := CallQueryItems false "carol"; raised := None |}].
Proof.
  apply (clear_twice_on_empty_history (healthy t1) (healthy t2) "carol" busy_world).
  - reflexivity.
  - reflexivity.
  - by vm_compute.
Defined.

(** ** Commands *)

Lemma loop_body_exit user_id line env w :
  lower line = "exit" →
  loop_body user_id line env w = (Ok Break, emit (Prompt "You: ") w).
Proof. intros H. run. by rewrite bool_decide_eq_true_2. Qed.

Lemma loop_body_history user_id line env w :
  lower line = "history" →
  loop_body user_id line env w =
    match query_fault env with
    | None =>
        (Ok Continue,
         emit (Printed ("<-- End of chat history of user ID: " ++ user_id ++ " -->" ++ LF))
           (emit (Printed (history_in user_id w))
              (emit (Printed (LF ++ "<-- Chat history of user ID: " ++ user_id ++ " -->"))
                 (record (CallQueryItems true user_id) None (emit (Prompt "You: ") w)))))
    | Some e =>
        (Raise e, record (CallQueryItems true user_id) (Some e) (emit (Prompt "You: ") w))
    end.
Proof.
  intros H. run. rewrite H.
  change (bool_decide ("history" = "exit")) with false.
  change (bool_decide ("history" = "history")) with true. cbv iota.
  by destruct (query_fault env).
Qed.

Lemma loop_body_clear user_id line env w :
  lower line = "clear" →
  loop_body user_id line env w =
    match _clear_historical_context_sync env user_id (emit (Prompt "You: ") w) with
    | (Ok _, w1) => (Ok Continue, emit (Printed "Chat history cleared.") w1)
    | (Raise e, w1) => (Raise e, w1)
    end.
Proof.
  intros H. unfold loop_body. erewrite bind_ok; [|reflexivity].
  rewrite H.
  change (bool_decide ("clear" = "exit")) with false.
  change (bool_decide ("clear" = "history")) with false.
  change (bool_decide ("clear" = "clear")) with true. cbv iota.
  unfold clear_historical_context, mbind, M_bind.
  by destruct (_clear_historical_context_sync env user_id (emit (Prompt "You: ") w))
    as [[[]|e] w1].
Qed.

Lemma command_or_message line :
  lower line = "exit" ∨ lower line = "history" ∨ lower line = "clear" ∨ is_message line.
Proof.
  unfold is_message.
  destruct (decide (lower line = "exit")); [by left|].
  destruct (decide (lower line = "history")); [by right; left|].
  destruct (decide (lower line = "clear")); [by right; right; left|].
  by right; right; right.
Qed.

Lemma message_first_call user_id line env w :
  is_message line →
  first_call w (loop_body user_id line env w) = Some (CallAnalyzeText line).
Proof.
  intros Hmsg. destruct (message_is_classified user_id line env w Hmsg) as (rest & Htr).
  unfold first_call. by rewrite Htr, drop_app_length.
Qed.

Lemma message_never_breaks user_id line env w :
  is_message line → (loop_body user_id line env w).1 ≠ Ok Break.
Proof.
  intros Hmsg. pose proof (loop_body_message user_id line env w Hmsg) as Hpass.
  destruct (loop_body user_id line env w) as [r w']. by inversion Hpass.
Qed.

(** C6, as the code has it.  The command is decided by the whole line as
    typed, lower-cased and not trimmed.  The loop is left exactly for a
    line that lower-cases to "exit"; "history" reads the history and prints
    it between its two banner lines; "clear" runs the clear operation and
    prints the confirmation when that returns; any other line goes to the
    classifier as a chat message. *)
Theorem commands_match_the_whole_line user_id line env w :
  let p := loop_body user_id line env w in
  let w0 := emit (Prompt "You: ") w in
  (p.1 = Ok Break ↔ lower line = "exit") ∧
  (lower line = "exit" → p = (Ok Break, w0)) ∧
  (lower line = "history" →
     p = match query_fault env with
         | None =>
             (Ok Continue,
              emit (Printed ("<-- End of chat history of user ID: " ++ user_id ++ " -->" ++ LF))
                (emit (Printed (history_in user_id w))
                   (emit (Printed (LF ++ "<-- Chat history of user ID: " ++ user_id ++ " -->"))
                      (record (CallQueryItems true user_id) None w0))))
         | Some e => (Raise e, record (CallQueryItems true user_id) (Some e) w0)
         end) ∧
  (lower line = "clear" →
     p = match _clear_historical_context_sync env user_id w0 with
         | (Ok _, w1) => (Ok Continue, emit (Printed "Chat history cleared.") w1)
         | (Raise e, w1) => (Raise e, w1)
         end) ∧
  (is_message line → first_call w p = Some (CallAnalyzeText line)).
Proof.
  intros p w0. subst p w0.
  split; [|split; [apply loop_body_exit|split;
            [apply loop_body_history|split;
              [apply loop_body_clear|apply message_first_call]]]].
  split.
  - intros Hbreak.
    destruct (command_or_message line) as [H|[H|[H|H]]]; [done|exfalso..].
    + rewrite (loop_body_history _ _ _ _ H) in Hbreak.
      by destruct (query_fault env).
    + rewrite (loop_body_clear _ _ _ _ H) in Hbreak.
      by destruct (_clear_historical_context_sync env user_id _) as [[[]|e] w1].
    + by apply (message_never_breaks user_id line env w).
  - intros H. by rewrite (loop_body_exit _ _ _ _ H).
Qed.

Lemma commands_match_the_whole_line_witness :
  loop_body "alice" "EXIT" (healthy t1) new_world = (Ok Break, emit (Prompt "You: ") new_world) ∧
  first_call new_world (loop_body "alice" "exit " (healthy t1) new_world)
    = Some (CallAnalyzeText "exit ").
Proof.
  split.
  - apply (commands_match_the_whole_line "alice" "EXIT" (healthy t1) new_world).
    reflexivity.
  - apply (commands_match_the_whole_line "alice" "exit " (healthy t1) new_world).
    by vm_compute.
Defined.

(** C6, read literally, fails on a command word with a space after it:
    trimmed, "exit " spells the exit command, but the loop is not left and
    the line is answered as a chat message. *)
Lemma commands_match_trimmed_input_fails : ¬ commands_match_trimmed_input.
Proof.
  intros Hclaim.
  specialize (Hclaim "alice" "exit " (healthy t1) new_world).
  by vm_compute in Hclaim.
Qed.

(** ** Failures of the chat function and of the store *)

Lemma main_app typed_user_id pre rest w w1 :
  main typed_user_id pre w = (Ok AwaitingInput, w1) →
  main typed_user_id (pre ++ rest) w = main_loop typed_user_id rest w1.
Proof.
  unfold main. erewrite !bind_ok by reflexivity. apply main_loop_app.
Qed.

(** Within one pass, a call to the chat function or to the store that
    raises is the last thing the pass does, and the pass raises the same
    exception. *)
Lemma pass_fails_fast user_id line env w r w' evs c e :
  loop_body user_id line env w = (r, w') →
  trace w' = (trace w ++ evs)%list →
  {| call := c; raised := Some e |} ∈ evs →
  generation_or_store c →
  r = Raise e.
Proof.
  intros Hrun Htrace Hin Hc.
  destruct (command_or_message line) as [H|[H|[H|H]]].
  - rewrite (loop_body_exit _ _ _ _ H) in Hrun. injection Hrun as <- <-.
    proj in Htrace. rewrite <- (app_nil_r (trace w)) in Htrace at 1.
    apply app_inv_head in Htrace. subst. in_list.
  - rewrite (loop_body_history _ _ _ _ H) in Hrun.
    destruct (query_fault env); injection Hrun as <- <-; proj in Htrace;
      apply app_inv_head in Htrace; subst; in_list; by simplify_eq.
  - rewrite (loop_body_clear _ _ _ _ H) in Hrun.
    unfold _clear_historical_context_sync, container_query_items, mbind, M_bind in Hrun.
    destruct (query_fault env) as [e0|].
    + injection Hrun as <- <-. proj in Htrace.
      apply app_inv_head in Htrace. subst. in_list. by simplify_eq.
    + destruct (for_each _ _ _) as [r1 w1] eqn:Hloop.
      destruct (delete_loop_spec _ _ _ _ _ _ Hloop) as (_ & _ & dels & Htr & _ & Hfail).
      proj in Htr.
      assert (trace w' = trace w1) as Hsame.
      { by destruct r1 as [[]|e1]; injection Hrun as <- <-. }
      rewrite Hsame, Htr, <- app_assoc in Htrace.
      apply app_inv_head in Htrace. subst evs.
      apply elem_of_cons in Hin as [Hin|Hin]; [done|].
      specialize (Hfail _ _ Hin). subst r1. by injection Hrun as <- <-.
  - pose proof (loop_body_message user_id line env w H) as Hpass.
    rewrite Hrun in Hpass.
    pass_cases Hpass Htrace; in_list; by simplify_eq.
Qed.

(** C5.  Once the session stands at the prompt, if during the next pass a
    call to the chat function or to the store raises, the pass raises that
    exception, and so does [main]: nothing catches it, the lines that
    follow are never read, and the world is left as that pass left it. *)
Theorem generation_and_store_failures_end_the_session
    typed_user_id pre line env post w w1 r w2 evs c e :
  main typed_user_id pre w = (Ok AwaitingInput, w1) →
  loop_body typed_user_id line env w1 = (r, w2) →
  trace w2 = (trace w1 ++ evs)%list →
  {| call := c; raised := Some e |} ∈ evs →
  generation_or_store c →
  r = Raise e ∧
  main typed_user_id (pre ++ (line, env) :: post) w = (Raise e, w2).
Proof.
  intros Hpre Hrun Htrace Hin Hc.
  assert (r = Raise e) as -> by by eapply pass_fails_fast.
  split; [done|].
  rewrite (main_app _ _ _ _ _ Hpre). by apply main_loop_raise.
Qed.

Lemma generation_and_store_failures_end_the_session_witness :
  main "alice" ([("Hello", healthy t1)] ++ ("again", upsert_down t2) :: [("history", healthy t2)])
       new_world =
    (Raise store_unavailable,
     (loop_body "alice" "again" (upsert_down t2)
        (main "alice" [("Hello", healthy t1)] new_world).2).2).
Proof.
  eapply (generation_and_store_failures_end_the_session
            "alice" [("Hello", healthy t1)] "again" (upsert_down t2)
            [("history", healthy t2)] new_world
            (main "alice" [("Hello", healthy t1)] new_world).2
            (Raise store_unavailable) _
            [{| call := CallAnalyzeText "again"; raised := None |};
             {| call := CallQueryItems true "alice"; raised := None |};
             {| call := CallInvoke "again"
                          ("User: Hello" ++ LF ++ "ChatBot: You said: Hello");
                raised := None |};
             {| call := CallUpsertItem (interaction t2 "alice" "again" "You said: again");
                raised := Some store_unavailable |}]
            (CallUpsertItem (interaction t2 "alice" "again" "You said: again"))).
  - vm_compute. reflexivity.
  - reflexivity.
  - vm_compute. reflexivity.
  - in_here.
  - exact I.
Defined.

(** ** Two sessions *)

(** A safe message is answered and stored; "history" shows that turn;
    "clear" removes it; "history" then shows nothing. *)
Example session_hello_history_clear :
  let p := main "alice" [("Hello", healthy t1); ("history", healthy t2);
                         ("clear", healthy t2); ("History", healthy t2)] new_world in
  p.1 = Ok AwaitingInput ∧
  docs (container p.2) = [] ∧
  call <$> trace p.2 =
    [CallAnalyzeText "Hello"; CallQueryItems true "alice"; CallInvoke "Hello" "";
     CallUpsertItem (interaction t1 "alice" "Hello" "You said: Hello");
     CallQueryItems true "alice";
     CallQueryItems false "alice"; CallDeleteItem "1730635200.25" "alice";
     CallQueryItems true "alice"] ∧
  Printed ("User: Hello" ++ LF ++ "ChatBot: You said: Hello") ∈ stdout p.2 ∧
  Printed "Chat history cleared." ∈ stdout p.2 ∧
  last (stdout p.2) = Some (Printed ("<-- End of chat history of user ID: alice -->" ++ LF)) ∧
  stdout p.2 !! 17%nat = Some (Printed "").
Proof. vm_compute. repeat split; in_here. Qed.

(** A message the classifier scores at hate severity 3 is refused: no
    history read, no generation, nothing stored. *)
Example session_refusal :
  let env := {| content_safety_reply := λ _, Ok hateful;
                kernel_reply := echo;
                now := t1;
                query_fault := None;
                upsert_fault := None;
                delete_fault := λ _, None |} in
  let p := main "alice" [("some hateful text", env)] new_world in
  p.1 = Ok AwaitingInput ∧
  docs (container p.2) = [] ∧
  call <$> trace p.2 = [CallAnalyzeText "some hateful text"] ∧
  last (stdout p.2) = Some (Printed refusal).
Proof. vm_compute. repeat split. Qed.

(** The command rule of the specification on some lines. *)
Example spec_command_examples :
  spec_command "exit" = CmdExit ∧ spec_command "  Exit " = CmdExit ∧
  spec_command "exit " = CmdExit ∧ spec_command "CLEAR" = CmdClear ∧
  spec_command "history" = CmdHistory ∧ spec_command "exit now" = CmdMessage ∧
  spec_command "" = CmdMessage.
Proof. vm_compute. repeat split. Qed.

(** * Further properties of the code *)

(** ** What [analyze_text] returns *)

(** X1.  [analyze_text] makes exactly one call, never changes the
    container, and returns by the answer of the classifier: the verdict
    and the results when it answered, [None] after logging when it raised
    an [HttpResponseError], and the exception itself, uncaught, when it
    raised anything else. *)
Theorem analyze_text_outcomes env text w :
  let p := analyze_text env text w in
  container p.2 = container w ∧
  trace p.2 =
    (trace w ++ [{| call := CallAnalyzeText text;
                    raised := exn_of (content_safety_reply env text) |}])%list ∧
  match content_safety_reply env text with
  | Ok response =>
      p.1 = Ok (Some (none_at_or_above 2 (categories_results response),
                      categories_results response))
  | Raise e =>
      if isinstance e HttpResponseError
      then p = (Ok None,
                emit (Printed ("Failed to analyze text. Error: " ++ exn_msg e))
                  (record (CallAnalyzeText text) (Some e) w))
      else p = (Raise e, record (CallAnalyzeText text) (Some e) w)
  end.
Proof.
  intros p. subst p.
  destruct (content_safety_reply env text) as [response|e] eqn:Hreply.
  - rewrite (analyze_text_ok _ _ _ _ Hreply). cbn [fst snd exn_of].
    rewrite container_reported, trace_reported. by proj.
  - run. rewrite Hreply. by destruct (isinstance e HttpResponseError).
Qed.

(** X2.  An exception of the classifier that is no [HttpResponseError]
    (a refused connection, say) passes through [analyze_text] and through
    [main]: the session ends with it, nothing is printed about it, and the
    lines that follow are never read. *)
Theorem other_classifier_errors_end_the_session
    typed_user_id pre line env post w w1 e :
  main typed_user_id pre w = (Ok AwaitingInput, w1) →
  is_message line →
  content_safety_reply env line = Raise e →
  isinstance e HttpResponseError = false →
  main typed_user_id (pre ++ (line, env) :: post) w =
    (Raise e, record (CallAnalyzeText line) (Some e) (emit (Prompt "You: ") w1)).
Proof.
  intros Hpre Hmsg Hreply Hi.
  rewrite (main_app _ _ _ _ _ Hpre). apply main_loop_raise.
  pose proof (loop_body_message typed_user_id line env w1 Hmsg) as Hpass.
  inversion Hpass; subst; congruence.
Qed.

Lemma other_classifier_errors_end_the_session_witness :
  main "alice" ([("Hello", healthy t1)] ++
                ("again", classifier_unreachable t2) :: [("history", healthy t2)])
       new_world =
    (Raise refused_connection,
     record (CallAnalyzeText "again") (Some refused_connection)
       (emit (Prompt "You: ") (main "alice" [("Hello", healthy t1)] new_world).2)).
Proof.
  apply (other_classifier_errors_end_the_session
           "alice" [("Hello", healthy t1)] "again" (classifier_unreachable t2)
           [("history", healthy t2)] new_world
           (main "alice" [("Hello", healthy t1)] new_world).2 refused_connection).
  - vm_compute. reflexivity.
  - by vm_compute.
  - reflexivity.
  - reflexivity.
Defined.

(** ** Refusals and what reaches the chat function *)

(** X3.  A message for which the classifier reports some category at
    severity 2 or more is refused: the pass makes the classification call
    and no other, leaves the container as it was, prints the refusal as
    its last line, and the loop goes on. *)
Theorem unsafe_message_is_refused user_id line env w response cat r :
  is_message line →
  content_safety_reply env line = Ok response →
  find_category cat response = Some r →
  (2 ≤ severity r)%Z →
  ∃ w', loop_body user_id line env w = (Ok Continue, w') ∧
        container w' = container w ∧
        trace w' = (trace w ++ [{| call := CallAnalyzeText line; raised := None |}])%list ∧
        last (stdout w') = Some (Printed refusal).
Proof.
  intros Hmsg Hreply Hfind Hsev.
  assert (verdict env line = Some false) as Hv.
  { rewrite (verdict_ok _ _ _ Hreply). f_equal. apply not_true_iff_false.
    intros Hsafe.
    pose proof (proj1 (none_at_or_above_iff _ _) Hsafe (Some r) r) as Hlt.
    assert (severity r < 2)%Z; [|lia]. apply Hlt; [|done].
    unfold categories_results. cbn [fmap list_fmap snd]. rewrite <- Hfind.
    destruct cat; in_here. }
  pose proof (loop_body_message user_id line env w Hmsg) as Hpass.
  destruct (loop_body user_id line env w) as [r0 w'].
  inversion Hpass; subst; clear Hpass; try congruence.
  eexists. split; [reflexivity|]. proj.
  rewrite container_reported, trace_reported. proj.
  split; [done|]. split; [done|]. apply last_snoc.
Qed.

Lemma unsafe_message_is_refused_witness :
  ∃ w', loop_body "alice" "some hateful text" (classifier_alarmed t1) busy_world
          = (Ok Continue, w') ∧
        container w' = busy ∧
        trace w' = [{| call := CallAnalyzeText "some hateful text"; raised := None |}] ∧
        last (stdout w') = Some (Printed refusal).
Proof.
  apply (unsafe_message_is_refused "alice" "some hateful text" (classifier_alarmed t1)
           busy_world hateful HATE {| category := HATE; severity := 3 |}).
  - by vm_compute.
  - reflexivity.
  - reflexivity.
  - by vm_compute.
Defined.

Lemma delete_loop_untouched env user_id items w r w' evs :
  for_each items (λ item, container_delete_item env item user_id) w = (r, w') →
  trace w' = (trace w ++ evs)%list →
  (∀ ev, ev ∈ evs → raised ev ≠ None) →
  container w' = container w.
Proof.
  destruct items as [|x xs]; simpl.
  - by intros [= <- <-].
  - unfold mbind, M_bind.
    destruct (delete_item_cases env x user_id w)
      as [(e & _ & ->)|[(_ & _ & ->)|(_ & _ & ->)]].
    + by intros [= <- <-].
    + intros (_ & _ & dels & Htr & _)%delete_loop_spec Htrace Hnone. exfalso.
      proj in Htr. rewrite Htr, <- app_assoc in Htrace.
      apply app_inv_head in Htrace. subst evs.
      by apply (Hnone _ (list_elem_of_here _ _)).
    + by intros [= <- <-].
Qed.

(** What a run of the clear operation records and may touch. *)
Lemma clear_run env user_id w :
  ∃ r1 w1 evs,
    _clear_historical_context_sync env user_id w = (r1, w1) ∧
    stdout w1 = stdout w ∧
    trace w1 = (trace w ++ evs)%list ∧
    (∀ k, k.1 ≠ user_id → container w1 !! k = container w !! k) ∧
    (∀ ev, ev ∈ evs →
       call ev = CallQueryItems false user_id ∨ ∃ i, call ev = CallDeleteItem i user_id) ∧
    ((∀ ev, ev ∈ evs → is_write (call ev) = true → raised ev ≠ None) →
     container w1 = container w).
Proof.
  unfold _clear_historical_context_sync, container_query_items, mbind, M_bind.
  destruct (query_fault env) as [e|].
  - eexists _, _, [_]. split; [reflexivity|]. proj.
    split; [done|]. split; [done|]. split; [done|]. split; [|done].
    intros ev Hev. in_list. subst. by left.
  - destruct (for_each _ _ _) as [r1 w1] eqn:Hloop.
    destruct (delete_loop_spec _ _ _ _ _ _ Hloop) as (Hout & Hframe & dels & Htr & Hcalls & _).
    proj in Hout. proj in Hframe. proj in Htr.
    eexists _, _, (_ :: dels). split; [reflexivity|].
    split; [done|]. split; [by rewrite Htr, <- app_assoc|]. split; [|split].
    + intros k Hk. apply Hframe. intros item _ ->. by apply Hk.
    + intros ev [->|Hev]%elem_of_cons; [by left|right; by apply Hcalls].
    + intros Hnone.
      rewrite (delete_loop_untouched _ _ _ _ _ _ dels Hloop); [done|by proj|].
      intros ev Hev. apply Hnone; [by apply list_elem_of_further|].
      destruct (Hcalls ev Hev) as (i & ->). reflexivity.
Qed.

(** X4.  The chat function is called only in a pass over a chat message
    whose verdict is safe; it is given the line as typed and the history
    read in that same pass, after the query that read it. *)
Theorem invoke_only_after_a_safe_verdict user_id line env w r w' evs m h o :
  loop_body user_id line env w = (r, w') →
  trace w' = (trace w ++ evs)%list →
  {| call := CallInvoke m h; raised := o |} ∈ evs →
  is_message line ∧ verdict env line = Some true ∧
  m = line ∧ h = history_in user_id w ∧ o = exn_of (kernel_reply env line h) ∧
  ∃ rest, evs = {| call := CallAnalyzeText line; raised := None |}
              :: {| call := CallQueryItems true user_id; raised := None |}
              :: {| call := CallInvoke m h; raised := o |} :: rest.
Proof.
  intros Hrun Htrace Hin.
  destruct (command_or_message line) as [H|[H|[H|H]]].
  - rewrite (loop_body_exit _ _ _ _ H) in Hrun. injection Hrun as <- <-.
    proj in Htrace. rewrite <- (app_nil_r (trace w)) in Htrace at 1.
    apply app_inv_head in Htrace. subst. in_list.
  - rewrite (loop_body_history _ _ _ _ H) in Hrun.
    destruct (query_fault env); injection Hrun as <- <-; proj in Htrace;
      apply app_inv_head in Htrace; subst; in_list; by simplify_eq.
  - rewrite (loop_body_clear _ _ _ _ H) in Hrun.
    destruct (clear_run env user_id (emit (Prompt "You: ") w))
      as (r1 & w1 & dels & Hclear & _ & Htr & _ & Hcalls & _).
    rewrite Hclear in Hrun. proj in Htr.
    assert (trace w' = trace w1) as Hsame.
    { by destruct r1 as [[]|e1]; injection Hrun as <- <-. }
    rewrite Hsame, Htr in Htrace. apply app_inv_head in Htrace. subst evs.
    destruct (Hcalls _ Hin) as [Hc|(i & Hc)]; discriminate.
  - pose proof (loop_body_message user_id line env w H) as Hpass.
    rewrite Hrun in Hpass.
    pass_cases Hpass Htrace; in_list; simplify_eq;
      (split; [done|]); (split; [done|]); (split; [done|]); (split; [done|]);
      match goal with Hk : kernel_reply _ _ _ = _ |- _ => rewrite Hk end;
      (split; [done|]); by eexists.
Qed.

Lemma invoke_only_after_a_safe_verdict_witness :
  is_message "Hello" ∧ verdict (healthy t1) "Hello" = Some true ∧
  "Hello" = "Hello" ∧ "" = history_in "alice" new_world ∧
  None = exn_of (kernel_reply (healthy t1) "Hello" "") ∧
  ∃ rest,
    trace (loop_body "alice" "Hello" (healthy t1) new_world).2 =
      {| call := CallAnalyzeText "Hello"; raised := None |}
      :: {| call := CallQueryItems true "alice"; raised := None |}
      :: {| call := CallInvoke "Hello" ""; raised := None |} :: rest.
Proof.
  apply (invoke_only_after_a_safe_verdict "alice" "Hello" (healthy t1) new_world
           (loop_body "alice" "Hello" (healthy t1) new_world).1
           (loop_body "alice" "Hello" (healthy t1) new_world).2).
  - reflexivity.
  - reflexivity.
  - vm_compute. in_here.
Defined.

(** ** What a session may change *)

Lemma pass_frame user_id line env w :
  ∀ k, k.1 ≠ user_id →
       container (loop_body user_id line env w).2 !! k = container w !! k.
Proof.
  intros k Hk. destruct (command_or_message line) as [H|[H|[H|H]]].
  - by rewrite (loop_body_exit _ _ _ _ H).
  - rewrite (loop_body_history _ _ _ _ H). by destruct (query_fault env).
  - rewrite (loop_body_clear _ _ _ _ H).
    destruct (clear_run env user_id (emit (Prompt "You: ") w))
      as (r1 & w1 & dels & -> & _ & _ & Hframe & _).
    specialize (Hframe k Hk). by destruct r1 as [[]|e1].
  - pose proof (loop_body_message user_id line env w H) as Hpass.
    destruct (loop_body user_id line env w) as [r w'].
    inversion Hpass; subst; clear Hpass; cbn [snd]; proj;
      rewrite ?container_reported; proj; try done.
    unfold upsert. apply lookup_insert_ne. intros <-. by apply Hk.
Qed.

Lemma main_loop_frame user_id script w :
  ∀ k, k.1 ≠ user_id →
       container (main_loop user_id script w).2 !! k = container w !! k.
Proof.
  intros k Hk. revert w. induction script as [|[line env] script IH]; intros w; [done|].
  simpl. unfold mbind, M_bind.
  pose proof (pass_frame user_id line env w k Hk) as Hpass.
  destruct (loop_body user_id line env w) as [[[|]|e] w1]; cbn [snd] in *.
  - by rewrite IH.
  - done.
  - done.
Qed.

(** X5.  Whatever is typed and whatever the services answer, a session
    leaves every document of every other user as it found it. *)
Theorem session_leaves_other_users_alone typed_user_id script w k :
  k.1 ≠ typed_user_id →
  container (main typed_user_id script w).2 !! k = container w !! k.
Proof.
  intros Hk. unfold main. erewrite bind_ok by reflexivity.
  by rewrite main_loop_frame.
Qed.

Lemma session_leaves_other_users_alone_witness :
  container (main "alice" [("Hello", healthy t1); ("clear", healthy t2)] busy_world).2
    !! ("bob", "1730635207.5")
  = busy !! ("bob", "1730635207.5").
Proof.
  apply (session_leaves_other_users_alone
           "alice" [("Hello", healthy t1); ("clear", healthy t2)] busy_world
           ("bob", "1730635207.5")).
  by vm_compute.
Defined.

(** X6.  Within a pass the container changes only through an upsert or a
    deletion that the store served: a pass in which every such call
    raised, or none was made (exit, history, a refusal, a failure
    earlier on), leaves the container as it was. *)
Theorem container_changes_only_by_served_writes user_id line env w r w' evs :
  loop_body user_id line env w = (r, w') →
  trace w' = (trace w ++ evs)%list →
  (∀ ev, ev ∈ evs → is_write (call ev) = true → raised ev ≠ None) →
  container w' = container w.
Proof.
  intros Hrun Htrace Hnone.
  destruct (command_or_message line) as [H|[H|[H|H]]].
  - rewrite (loop_body_exit _ _ _ _ H) in Hrun. by injection Hrun as <- <-.
  - rewrite (loop_body_history _ _ _ _ H) in Hrun.
    by destruct (query_fault env); injection Hrun as <- <-.
  - rewrite (loop_body_clear _ _ _ _ H) in Hrun.
    destruct (clear_run env user_id (emit (Prompt "You: ") w))
      as (r1 & w1 & dels & Hclear & _ & Htr & _ & _ & Hsame).
    rewrite Hclear in Hrun. proj in Htr. proj in Hsame.
    assert (trace w' = trace w1 ∧ container w' = container w1) as [Ht Hc].
    { by destruct r1 as [[]|e1]; injection Hrun as <- <-. }
    rewrite Ht, Htr in Htrace. apply app_inv_head in Htrace. subst evs.
    rewrite Hc. by apply Hsame.
  - pose proof (loop_body_message user_id line env w H) as Hpass.
    rewrite Hrun in Hpass.
    pass_cases Hpass Htrace; try done.
    exfalso. eapply (Hnone {| call := CallUpsertItem _; raised := None |}); [in_here|done..].
Qed.

Lemma container_changes_only_by_served_writes_witness :
  container (loop_body "alice" "Hello" (upsert_down t1) new_world).2 = ∅.
Proof.
  apply (container_changes_only_by_served_writes "alice" "Hello" (upsert_down t1) new_world
           (loop_body "alice" "Hello" (upsert_down t1) new_world).1
           (loop_body "alice" "Hello" (upsert_down t1) new_world).2
           [{| call := CallAnalyzeText "Hello"; raised := None |};
            {| call := CallQueryItems true "alice"; raised := None |};
            {| call := CallInvoke "Hello" ""; raised := None |};
            {| call := CallUpsertItem (interaction t1 "alice" "Hello" "You said: Hello");
               raised := Some store_unavailable |}]).
  - reflexivity.
  - reflexivity.
  - intros ev Hev Hw. in_list; subst; simpl in *; congruence.
Defined.

(** ** Writing, reading and clearing together *)

Lemma string_app_nil_r (s : string) : s ++ "" = s.
Proof. induction s as [|c s IH]; [done|]. change (String c (s ++ "") = String c s). by rewrite IH. Qed.

Lemma elem_of_docs_upsert (doc d : Item) (c : Container) :
  d ∈ docs (upsert doc c) ↔ d = doc ∨ (d ∈ docs c ∧ doc_key d ≠ doc_key doc).
Proof.
  rewrite !elem_of_docs. unfold upsert.
  destruct (decide (doc_key doc = doc_key d)) as [Heq|Hne].
  - rewrite Heq, lookup_insert_eq. split.
    + intros [= Hm Hr Ht]. left. destruct d, doc. unfold doc_key in Heq.
      cbn [id userId user_message bot_response timestamp] in *. congruence.
    + intros [->|[_ ?]]; [done|congruence].
  - rewrite lookup_insert_ne by done. split.
    + intros Hd. right. split; [done|congruence].
    + intros [->|[? _]]; [congruence|done].
Qed.

Lemma format_history_cons d items :
  ∃ rest, format_history (d :: items) =
            turn_text (user_message d) (bot_response d) ++ rest.
Proof.
  unfold format_history. cbn [take]. rewrite fmap_cons.
  destruct (take 4 items) as [|d' ds].
  - rewrite fmap_nil. cbn [String.concat]. exists "". by rewrite string_app_nil_r.
  - rewrite fmap_cons. cbn [String.concat]. by eexists.
Qed.

Lemma sorted_head (doc : Item) (l : list Item) :
  StronglySorted ts_desc l →
  doc ∈ l →
  (∀ d, d ∈ l → d ≠ doc → ¬ String.le (timestamp doc) (timestamp d)) →
  ∃ rest, l = doc :: rest.
Proof.
  intros Hsorted Hin Hlater. destruct l as [|h t]; [in_list|].
  destruct (decide (h = doc)) as [->|Hne]; [by eexists|]. exfalso.
  apply elem_of_cons in Hin as [->|Hin]; [done|].
  apply StronglySorted_inv in Hsorted as [_ Hall].
  rewrite Forall_forall in Hall.
  apply (Hlater h); [apply list_elem_of_here|done|].
  by apply (Hall doc).
Qed.

(** X7.  Write, then read: when every turn the user already has carries a
    timestamp strictly before the new one, the turn just stored is the
    first of the history read next, whose text begins with its two
    lines. *)
Theorem stored_turn_heads_the_next_history env env' user_id message response w :
  upsert_fault env = None →
  query_fault env' = None →
  (∀ d, d ∈ select false user_id (container w) →
        ¬ String.le (isoformat (now env)) (timestamp d)) →
  ∃ w1 w2 rest,
    _store_interaction_sync env user_id message response w = (Ok tt, w1) ∧
    _load_historical_context_sync env' user_id w1 =
      (Ok (turn_text message response ++ rest), w2).
Proof.
  intros Hu Hq Holder.
  set (doc := interaction (now env) user_id message response).
  destruct (sorted_head doc (select true user_id (upsert doc (container w))))
    as (items & Hsel).
  - apply select_sorted.
  - apply elem_of_select. split; [done|]. apply elem_of_docs_upsert. by left.
  - intros d [Hd [->|[Hin _]]%elem_of_docs_upsert]%elem_of_select Hne; [done|].
    apply Holder. by apply elem_of_select.
  - destruct (format_history_cons doc items) as (rest & Hfmt).
    eexists _, _, rest. split.
    + run. rewrite Hu. reflexivity.
    + run. rewrite Hq. proj. fold doc. by rewrite Hsel, Hfmt.
Qed.

Lemma stored_turn_heads_the_next_history_witness :
  ∃ w1 w2 rest,
    _store_interaction_sync (healthy t2) "alice" "Hello" "Hi!" busy_world = (Ok tt, w1) ∧
    _load_historical_context_sync (healthy t2) "alice" w1 =
      (Ok (turn_text "Hello" "Hi!" ++ rest), w2).
Proof.
  apply (stored_turn_heads_the_next_history (healthy t2) (healthy t2) "alice"
           "Hello" "Hi!" busy_world).
  - reflexivity.
  - reflexivity.
  - apply (proj1 (Forall_forall
             (λ d, ¬ String.le (isoformat (now (healthy t2))) (timestamp d))
             (select false "alice" busy))).
    apply (bool_decide_unpack _). vm_compute. exact I.
Defined.

Lemma clear_ok env user_id w :
  query_fault env = None →
  (∀ i, delete_fault env i = None) →
  ∃ w', _clear_historical_context_sync env user_id w = (Ok tt, w') ∧
        ∀ k, k.1 = user_id → container w' !! k = None.
Proof.
  intros Hq Hfault.
  unfold _clear_historical_context_sync, container_query_items, mbind, M_bind.
  rewrite Hq. set (w0 := record (CallQueryItems false user_id) None w).
  destruct (delete_loop_ok env user_id (select false user_id (container w)) w0 Hfault)
    as (w' & Hrun & Hgone).
  { apply select_ids_NoDup. }
  { intros item [Hu Hin%elem_of_docs]%elem_of_select. unfold doc_key in Hin.
    rewrite Hu in Hin. unfold w0. proj. by rewrite Hin. }
  exists w'. split; [done|].
  intros [u i] Hk. simpl in Hk. subst u.
  destruct (container w !! (user_id, i)) as [b|] eqn:Hb.
  - apply (Hgone (doc_of ((user_id, i), b))).
    apply elem_of_select. split; [done|]. apply elem_of_docs.
    by rewrite doc_key_of, doc_body_of.
  - destruct (delete_loop_spec _ _ _ _ _ _ Hrun) as (_ & Hframe & _).
    rewrite Hframe; [done|].
    intros item [Hu Hin%elem_of_docs]%elem_of_select [= Heq].
    unfold doc_key in Hin. rewrite Hu, <- Heq in Hin. congruence.
Qed.

(** X8.  Clear, then read: after a clear the store served, the history
    read for that user is the empty text. *)
Theorem history_is_empty_after_clear env env' user_id w :
  query_fault env = None →
  (∀ i, delete_fault env i = None) →
  query_fault env' = None →
  ∃ w1 w2,
    _clear_historical_context_sync env user_id w = (Ok tt, w1) ∧
    _load_historical_context_sync env' user_id w1 = (Ok "", w2).
Proof.
  intros Hq Hfault Hq'.
  destruct (clear_ok env user_id w Hq Hfault) as (w1 & Hclear & Hnone).
  exists w1. eexists. split; [done|].
  unfold _load_historical_context_sync, container_query_items, mbind, M_bind.
  rewrite Hq'. by rewrite (select_empty_history true user_id (container w1) Hnone).
Qed.

Lemma history_is_empty_after_clear_witness :
  ∃ w1 w2,
    _clear_historical_context_sync (healthy t1) "alice" busy_world = (Ok tt, w1) ∧
    _load_historical_context_sync (healthy t2) "alice" w1 = (Ok "", w2).
Proof.
  apply (history_is_empty_after_clear (healthy t1) (healthy t2) "alice" busy_world).
  - reflexivity.
  - intros i. reflexivity.
  - reflexivity.
Defined.

(** X9.  Two writes of one user under the same rendering of the clock
    collide: both return normally, and the container ends as if only the
    second had been made, so the first turn is gone. *)
Theorem writes_with_one_clock_reading_collide env1 env2 user_id m1 r1 m2 r2 w :
  upsert_fault env1 = None →
  upsert_fault env2 = None →
  str_timestamp (now env1) = str_timestamp (now env2) →
  ∃ w1 w2,
    _store_interaction_sync env1 user_id m1 r1 w = (Ok tt, w1) ∧
    _store_interaction_sync env2 user_id m2 r2 w1 = (Ok tt, w2) ∧
    container w2 = upsert (interaction (now env2) user_id m2 r2) (container w) ∧
    (∀ d, d ∈ docs (container w2) →
          userId d = user_id → id d = str_timestamp (now env1) →
          d = interaction (now env2) user_id m2 r2).
Proof.
  intros Hu1 Hu2 Hsame.
  eexists _, _. split; [run; rewrite Hu1; reflexivity|].
  split; [run; rewrite Hu2; reflexivity|]. proj.
  assert (upsert (interaction (now env2) user_id m2 r2)
            (upsert (interaction (now env1) user_id m1 r1) (container w))
          = upsert (interaction (now env2) user_id m2 r2) (container w)) as ->.
  { unfold upsert, doc_key, interaction. cbn [id userId].
    rewrite Hsame. apply insert_insert_eq. }
  split; [done|].
  intros d [->|[_ Hne]]%elem_of_docs_upsert Hd Hid; [done|]. destruct Hne.
  unfold doc_key, interaction. cbn [id userId]. by rewrite Hd, Hid, Hsame.
Qed.

Lemma writes_with_one_clock_reading_collide_witness :
  ∃ w1 w2,
    _store_interaction_sync (healthy t1) "alice" "first" "one" new_world = (Ok tt, w1) ∧
    _store_interaction_sync (healthy t1) "alice" "second" "two" w1 = (Ok tt, w2) ∧
    container w2 = upsert (interaction t1 "alice" "second" "two") ∅ ∧
    (∀ d, d ∈ docs (container w2) →
          userId d = "alice" → id d = "1730635200.25" →
          d = interaction t1 "alice" "second" "two").
Proof.
  apply (writes_with_one_clock_reading_collide (healthy t1) (healthy t1) "alice"
           "first" "one" "second" "two" new_world); reflexivity.
Defined.

(** X10.  Two writes under different renderings of the clock, or by
    different users, do not disturb each other: both turns are in the
    container afterwards. *)
Theorem writes_with_different_keys_are_both_kept env1 env2 u1 u2 m1 r1 m2 r2 w :
  upsert_fault env1 = None →
  upsert_fault env2 = None →
  (u1, str_timestamp (now env1)) ≠ (u2, str_timestamp (now env2)) →
  ∃ w1 w2,
    _store_interaction_sync env1 u1 m1 r1 w = (Ok tt, w1) ∧
    _store_interaction_sync env2 u2 m2 r2 w1 = (Ok tt, w2) ∧
    interaction (now env1) u1 m1 r1 ∈ docs (container w2) ∧
    interaction (now env2) u2 m2 r2 ∈ docs (container w2).
Proof.
  intros Hu1 Hu2 Hne.
  eexists _, _. split; [run; rewrite Hu1; reflexivity|].
  split; [run; rewrite Hu2; reflexivity|]. proj.
  split; apply elem_of_docs_upsert.
  - right. split; [|done]. apply elem_of_docs_upsert. by left.
  - by left.
Qed.

Lemma writes_with_different_keys_are_both_kept_witness :
  ∃ w1 w2,
    _store_interaction_sync (healthy t1) "alice" "first" "one" new_world = (Ok tt, w1) ∧
    _store_interaction_sync (healthy t2) "alice" "second" "two" w1 = (Ok tt, w2) ∧
    interaction t1 "alice" "first" "one" ∈ docs (container w2) ∧
    interaction t2 "alice" "second" "two" ∈ docs (container w2).
Proof.
  apply (writes_with_different_keys_are_both_kept (healthy t1) (healthy t2)
           "alice" "alice" "first" "one" "second" "two" new_world);
    [reflexivity|reflexivity|discriminate].
Defined.

(** ** Leaving the loop *)

(** X11.  A line that lower-cases to "exit" ends the session at once: the
    prompt is the last thing written, no call is made, and the lines that
    follow are never read. *)
Theorem exit_ends_the_session typed_user_id pre line env post w w1 :
  main typed_user_id pre w = (Ok AwaitingInput, w1) →
  lower line = "exit" →
  main typed_user_id (pre ++ (line, env) :: post) w =
    (Ok Exited, emit (Prompt "You: ") w1).
Proof.
  intros Hpre Hexit. rewrite (main_app _ _ _ _ _ Hpre). simpl.
  erewrite bind_ok; [|by apply loop_body_exit]. reflexivity.
Qed.

Lemma exit_ends_the_session_witness :
  main "alice" ([("Hello", healthy t1)] ++ ("Exit", healthy t2) :: [("clear", healthy t2)])
       new_world =
    (Ok Exited, emit (Prompt "You: ") (main "alice" [("Hello", healthy t1)] new_world).2).
Proof.
  apply (exit_ends_the_session "alice" [("Hello", healthy t1)] "Exit" (healthy t2)
           [("clear", healthy t2)] new_world).
  - vm_compute. reflexivity.
  - reflexivity.
Defined.

Lemma break_only_on_exit user_id line env w :
  (loop_body user_id line env w).1 = Ok Break → lower line = "exit".
Proof.
  intros Hbreak.
  destruct (command_or_message line) as [H|[H|[H|H]]]; [done|exfalso..].
  - rewrite (loop_body_history _ _ _ _ H) in Hbreak. by destruct (query_fault env).
  - rewrite (loop_body_clear _ _ _ _ H) in Hbreak.
    by destruct (_clear_historical_context_sync env user_id _) as [[[]|e] w1].
  - by apply (message_never_breaks user_id line env w).
Qed.

Lemma main_loop_exited user_id script w w' :
  main_loop user_id script w = (Ok Exited, w') →
  ∃ pre line env post w1,
    script = (pre ++ (line, env) :: post)%list ∧
    lower line = "exit" ∧
    main_loop user_id pre w = (Ok AwaitingInput, w1) ∧
    w' = emit (Prompt "You: ") w1.
Proof.
  revert w. induction script as [|[line env] script IH]; intros w; [done|].
  simpl. unfold mbind, M_bind.
  pose proof (break_only_on_exit user_id line env w) as Hbreak.
  destruct (loop_body user_id line env w) as [[[|]|e] w0] eqn:Hpass; [| |done].
  - intros (pre & l & e & post & w1 & -> & Hexit & Hpre & ->)%IH.
    exists ((line, env) :: pre), l, e, post, w1. split; [done|]. split; [done|].
    split; [|done]. simpl. by rewrite (bind_ok _ _ _ _ _ Hpass).
  - intros [= <-]. specialize (Hbreak eq_refl).
    rewrite (loop_body_exit _ _ _ _ Hbreak) in Hpass. injection Hpass as <-.
    by exists [], line, env, script, w.
Qed.

(** X12.  A session ends by leaving the loop only at a line that
    lower-cases to "exit": every line before it was processed to the end
    without an exception, and the exit pass itself only wrote its
    prompt. *)
Theorem session_exits_only_on_exit typed_user_id script w w' :
  main typed_user_id script w = (Ok Exited, w') →
  ∃ pre line env post w1,
    script = (pre ++ (line, env) :: post)%list ∧
    lower line = "exit" ∧
    main typed_user_id pre w = (Ok AwaitingInput, w1) ∧
    w' = emit (Prompt "You: ") w1.
Proof.
  unfold main. erewrite bind_ok by reflexivity.
  intros (pre & l & e & post & w1 & -> & Hexit & Hpre & ->)%main_loop_exited.
  exists pre, l, e, post, w1. split; [done|]. split; [done|]. split; [|done].
  by erewrite bind_ok by reflexivity.
Qed.

Lemma session_exits_only_on_exit_witness :
  ∃ pre line env post w1,
    [("Hello", healthy t1); ("EXIT", healthy t2); ("clear", healthy t2)]
      = (pre ++ (line, env) :: post)%list ∧
    lower line = "exit" ∧
    main "alice" pre new_world = (Ok AwaitingInput, w1) ∧
    (main "alice" [("Hello", healthy t1); ("EXIT", healthy t2); ("clear", healthy t2)]
       new_world).2 = emit (Prompt "You: ") w1.
Proof.
  apply (session_exits_only_on_exit "alice"
           [("Hello", healthy t1); ("EXIT", healthy t2); ("clear", healthy t2)]
           new_world).
  vm_compute. reflexivity.
Defined.

(** ** The deletions of a clear *)

Lemma for_each_app {A} (xs ys : list A) (body : A → M unit) w :
  for_each (xs ++ ys) body w = (for_each xs body;; for_each ys body) w.
Proof.
  revert w. induction xs as [|x xs IH]; intros w; simpl; [done|].
  unfold mbind, M_bind in *. destruct (body x w) as [[[]|e] w1]; [apply IH|done].
Qed.

Lemma delete_loop_served env user_id items w :
  (∀ item, item ∈ items → delete_fault env (id item) = None) →
  NoDup (id <$> items) →
  (∀ item, item ∈ items → is_Some (container w !! (user_id, id item))) →
  ∃ w', for_each items (λ item, container_delete_item env item user_id) w = (Ok tt, w') ∧
        trace w' = (trace w ++ (deletion user_id <$> items))%list ∧
        (∀ item, item ∈ items → container w' !! (user_id, id item) = None).
Proof.
  revert w. induction items as [|x xs IH]; intros w Hfault Hdup Hin.
  - exists w. split; [done|]. split; [by rewrite app_nil_r|]. intros; in_list.
  - rewrite fmap_cons in Hdup. apply NoDup_cons in Hdup as [Hx Hdup].
    destruct (delete_item_cases env x user_id w)
      as [(e & He & _)|[(_ & _ & Hrun)|(_ & Hnone & _)]].
    + rewrite Hfault in He; [done|apply list_elem_of_here].
    + destruct (IH (record (CallDeleteItem (id x) user_id) None
                      (set_container (delete (user_id, id x) (container w)) w)))
        as (w' & Hrest & Htr & Hgone); [|done|..].
      { intros item Hitem. apply Hfault. by apply list_elem_of_further. }
      { intros item Hitem. proj. rewrite lookup_delete_ne.
        - apply Hin. by apply list_elem_of_further.
        - intros [= Heq]. apply Hx. rewrite Heq. by apply list_elem_of_fmap_2. }
      exists w'. split; [|split].
      * simpl. by erewrite bind_ok.
      * proj in Htr. by rewrite Htr, fmap_cons, <- app_assoc.
      * intros item [->|Hitem]%elem_of_cons; [|by apply Hgone].
        destruct (delete_loop_spec _ _ _ _ _ _ Hrest) as (_ & Hframe & _).
        rewrite Hframe; [proj; apply lookup_delete_eq|].
        intros item Hitem [= Heq]. apply Hx. rewrite Heq. by apply list_elem_of_fmap_2.
    + destruct (Hin x) as [b Hb]; [apply list_elem_of_here|congruence].
Qed.

(** X13.  A clear the store serves makes one query and then exactly one
    deletion for each turn the query returned, in the order returned, each
    addressed to the user's own partition; it prints nothing. *)
Theorem clear_issues_one_deletion_per_turn env user_id w :
  query_fault env = None →
  (∀ i, delete_fault env i = None) →
  ∃ w', _clear_historical_context_sync env user_id w = (Ok tt, w') ∧
        trace w' =
          (trace w ++ {| call := CallQueryItems false user_id; raised := None |}
                      :: (deletion user_id <$> select false user_id (container w)))%list ∧
        stdout w' = stdout w.
Proof.
  intros Hq Hfault.
  unfold _clear_historical_context_sync, container_query_items, mbind, M_bind.
  rewrite Hq.
  destruct (delete_loop_served env user_id (select false user_id (container w))
              (record (CallQueryItems false user_id) None w))
    as (w' & Hrun & Htr & _).
  - intros item _. apply Hfault.
  - apply select_ids_NoDup.
  - intros item Hitem. proj. by rewrite (select_stored _ _ _ _ Hitem).
  - exists w'. split; [done|]. split.
    + proj in Htr. by rewrite Htr, <- app_assoc.
    + by destruct (delete_loop_spec _ _ _ _ _ _ Hrun) as (-> & _).
Qed.

Lemma clear_issues_one_deletion_per_turn_witness :
  ∃ w', _clear_historical_context_sync (healthy t1) "alice" busy_world = (Ok tt, w') ∧
        trace w' =
          ([] ++ {| call := CallQueryItems false "alice"; raised := None |}
                 :: (deletion "alice" <$> select false "alice" busy))%list ∧
        stdout w' = [].
Proof.
  apply (clear_issues_one_deletion_per_turn (healthy t1) "alice" busy_world).
  - reflexivity.
  - intros i. reflexivity.
Defined.

(** X14.  A clear is not undone when a deletion fails: the turns deleted
    before the failing call stay deleted, the turn whose deletion failed
    and those after it in the query's order stay stored, no further call
    is made, and the clear raises the exception of the store. *)
Theorem failed_deletion_leaves_the_rest env user_id w before x after e :
  query_fault env = None →
  select false user_id (container w) = (before ++ x :: after)%list →
  (∀ d, d ∈ before → delete_fault env (id d) = None) →
  delete_fault env (id x) = Some e →
  ∃ w', _clear_historical_context_sync env user_id w = (Raise e, w') ∧
        (∀ d, d ∈ before → d ∉ docs (container w')) ∧
        (∀ d, d ∈ x :: after → d ∈ docs (container w')) ∧
        trace w' =
          (trace w ++ {| call := CallQueryItems false user_id; raised := None |}
                      :: (deletion user_id <$> before)
                      ++ [{| call := CallDeleteItem (id x) user_id; raised := Some e |}])%list.
Proof.
  intros Hq Hsel Hbefore Hx.
  pose proof (select_ids_NoDup false user_id (container w)) as Hdup.
  rewrite Hsel, fmap_app, fmap_cons in Hdup.
  apply NoDup_app in Hdup as (Hdup1 & Hdisj & _).
  assert (∀ d, d ∈ (before ++ x :: after)%list → d ∈ select false user_id (container w))
    as Hall by by rewrite Hsel.
  unfold _clear_historical_context_sync, container_query_items, mbind, M_bind.
  rewrite Hq, Hsel, for_each_app. unfold mbind, M_bind.
  destruct (delete_loop_served env user_id before
              (record (CallQueryItems false user_id) None w) Hbefore Hdup1)
    as (w1 & Hrun & Htr & Hgone).
  { intros d Hd. proj. rewrite (select_stored false user_id (container w) d); [done|].
    apply Hall, elem_of_app. by left. }
  rewrite Hrun. simpl. unfold mbind, M_bind, container_delete_item. rewrite Hx.
  eexists. split; [reflexivity|]. proj.
  destruct (delete_loop_spec _ _ _ _ _ _ Hrun) as (_ & Hframe & _). proj in Hframe.
  split; [|split].
  - intros d Hd Hin%elem_of_docs.
    assert (userId d = user_id) as Hu.
    { assert (d ∈ select false user_id (container w)) as Hs
        by (apply Hall, elem_of_app; by left).
      by apply elem_of_select in Hs as [? _]. }
    unfold doc_key in Hin. rewrite Hu, (Hgone d Hd) in Hin. done.
  - intros d Hd.
    assert (d ∈ select false user_id (container w)) as Hs
      by (apply Hall, elem_of_app; by right).
    pose proof (select_stored _ _ _ _ Hs) as Hstored.
    apply elem_of_select in Hs as [Hu _].
    apply elem_of_docs. unfold doc_key. rewrite Hu, Hframe; [done|].
    intros item Hitem [= Heq].
    apply (Hdisj (id d)); [rewrite Heq; by apply list_elem_of_fmap_2|].
    rewrite <- fmap_cons. by apply list_elem_of_fmap_2.
  - proj in Htr. by rewrite Htr, <- !app_assoc.
Qed.

Lemma failed_deletion_leaves_the_rest_witness :
  ∃ w', _clear_historical_context_sync (delete_refused "1730635201.5" t1) "alice" busy_world
          = (Raise store_unavailable, w') ∧
        (∀ d, d ∈ [turn "alice" "3" "03"; turn "alice" "5" "05"] →
              d ∉ docs (container w')) ∧
        (∀ d, d ∈ turn "alice" "1" "01"
                  :: [turn "alice" "6" "06"; turn "alice" "2" "02"; turn "alice" "4" "04"] →
              d ∈ docs (container w')) ∧
        trace w' =
          ([] ++ {| call := CallQueryItems false "alice"; raised := None |}
                 :: (deletion "alice" <$> [turn "alice" "3" "03"; turn "alice" "5" "05"])
                 ++ [{| call := CallDeleteItem "1730635201.5" "alice";
                        raised := Some store_unavailable |}])%list.
Proof.
  apply (failed_deletion_leaves_the_rest (delete_refused "1730635201.5" t1) "alice"
           busy_world [turn "alice" "3" "03"; turn "alice" "5" "05"]
           (turn "alice" "1" "01")
           [turn "alice" "6" "06"; turn "alice" "2" "02"; turn "alice" "4" "04"]
           store_unavailable).
  - reflexivity.
  - vm_compute. reflexivity.
  - apply (proj1 (Forall_forall
             (λ d, delete_fault (delete_refused "1730635201.5" t1) (id d) = None)
             [turn "alice" "3" "03"; turn "alice" "5" "05"])).
    apply (bool_decide_unpack _). vm_compute. exact I.
  - reflexivity.
Defined.

(** ** The report of an analysis, and clearing again *)

Lemma report_lines_for heading cat response :
  report_for heading cat response (report_lines heading (find_category cat response)).
Proof.
  unfold report_for.
  destruct (find_category cat response) as [item|] eqn:H; simpl.
  - left. exists item. split; [by apply find_category_first|done].
  - right. split; [by apply find_category_none|done].
Qed.

(** X16.  When the classifier answers, [analyze_text] prints the opening
    banner, then for each of the categories hate, self_harm, sexual and
    violence, in that order, one line "<Name> severity: <n>" with the
    severity of the first entry of the answer that carries the category,
    or no line when the answer has no such entry, then the closing
    banner. *)
Theorem analyze_text_report env text response w :
  content_safety_reply env text = Ok response →
  ∃ hate self_harm sexual violence,
    stdout (analyze_text env text w).2 =
      (stdout w
       ++ [Printed (LF ++ "<-- Content Safety Analysis Results -->")]
       ++ hate ++ self_harm ++ sexual ++ violence
       ++ [Printed ("<-- End of Content Safety Analysis Results -->" ++ LF)])%list ∧
    report_for "Hate" HATE response hate ∧
    report_for "Self_harm" SELF_HARM response self_harm ∧
    report_for "Sexual" SEXUAL response sexual ∧
    report_for "Violence" VIOLENCE response violence.
Proof.
  intros Hreply.
  exists (report_lines "Hate" (find_category HATE response)),
         (report_lines "Self_harm" (find_category SELF_HARM response)),
         (report_lines "Sexual" (find_category SEXUAL response)),
         (report_lines "Violence" (find_category VIOLENCE response)).
  split; [|repeat split; apply report_lines_for].
  rewrite (analyze_text_ok _ _ _ _ Hreply). cbn [snd].
  unfold reported, print_results, categories_results.
  destruct (find_category HATE response) as [h|];
    destruct (find_category SELF_HARM response) as [s|];
    destruct (find_category SEXUAL response) as [x|];
    destruct (find_category VIOLENCE response) as [v|];
    run; cbn [for_each]; run; cbn [snd report_lines]; proj;
    by rewrite <- ?app_assoc.
Qed.

Lemma analyze_text_report_witness :
  ∃ hate self_harm sexual violence,
    stdout (analyze_text (classifier_alarmed t1) "some text" new_world).2 =
      ([] ++ [Printed (LF ++ "<-- Content Safety Analysis Results -->")]
       ++ hate ++ self_harm ++ sexual ++ violence
       ++ [Printed ("<-- End of Content Safety Analysis Results -->" ++ LF)])%list ∧
    report_for "Hate" HATE hateful hate ∧
    report_for "Self_harm" SELF_HARM hateful self_harm ∧
    report_for "Sexual" SEXUAL hateful sexual ∧
    report_for "Violence" VIOLENCE hateful violence.
Proof.
  apply (analyze_text_report (classifier_alarmed t1) "some text" hateful new_world).
  reflexivity.
Defined.

(** X17.  Clearing again after a clear the store served changes nothing:
    the second clear returns normally, makes its query and no deletion,
    and leaves the container as the first left it. *)
Theorem second_clear_is_a_no_op env1 env2 user_id w :
  query_fault env1 = None →
  (∀ i, delete_fault env1 i = None) →
  query_fault env2 = None →
  ∃ w1 w2,
    _clear_historical_context_sync env1 user_id w = (Ok tt, w1) ∧
    _clear_historical_context_sync env2 user_id w1 = (Ok tt, w2) ∧
    container w2 = container w1 ∧
    trace w2 = (trace w1 ++ [{| call := CallQueryItems false user_id; raised := None |}])%list.
Proof.
  intros Hq1 Hfault Hq2.
  destruct (clear_ok env1 user_id w Hq1 Hfault) as (w1 & Hclear & Hnone).
  exists w1. eexists. split; [done|].
  unfold _clear_historical_context_sync, container_query_items, mbind, M_bind.
  rewrite Hq2, (select_empty_history false user_id (container w1) Hnone).
  by split.
Qed.

Lemma second_clear_is_a_no_op_witness :
  ∃ w1 w2,
    _clear_historical_context_sync (healthy t1) "alice" busy_world = (Ok tt, w1) ∧
    _clear_historical_context_sync (delete_refused "1730635201.5" t2) "alice" w1
      = (Ok tt, w2) ∧
    container w2 = container w1 ∧
    trace w2 = (trace w1 ++ [{| call := CallQueryItems false "alice"; raised := None |}])%list.
Proof.
  apply (second_clear_is_a_no_op (healthy t1) (delete_refused "1730635201.5" t2)
           "alice" busy_world).
  - reflexivity.
  - intros i. reflexivity.
  - reflexivity.
Defined.
